(** * tuid/clogger.py: the changeset log (csetLog) and its workers

    A shallow embedding of [Clogger]: the [csetLog] table with its
    [INTEGER PRIMARY KEY] column [revnum], the renumbering primitive
    [recompute_table_revnums], the insertion step [add_cset_entries], the
    tip update, one iteration of each worker loop, and the query facade.

    The table is a finite map from [revnum] to the two other columns: the
    primary key makes [revnum] unique by construction.  A full scan of the
    table visits the rows in ascending [revnum] (rowid) order. *)

From stdpp Require Import gmap strings list sorting pretty.

Open Scope Z_scope.

(** ** Module constants *)

Definition SQL_CSET_BATCH_SIZE : nat := 500.
Definition CSET_TIP_WAIT_TIME : Z := 5 * 60.
Definition CSET_BACKFILL_WAIT_TIME : Z := 1 * 60.
Definition CSET_MAINTENANCE_WAIT_TIME : Z := 30 * 60.
Definition CSET_DELETION_WAIT_TIME : Z := 1 * 60.
Definition MINIMUM_PERMANENT_CSETS : Z := 1000.
Definition MAXIMUM_NONPERMANENT_CSETS : Z := 20000.
Definition UPDATE_VERY_OLD_FRONTIERS : bool := false.

(** ** Data model *)

(** A changeset identifier (12 characters of the upstream hash). *)
Abbreviation rev_id := string.

(** The [timestamp INTEGER] column has no [NOT NULL]: [None] is SQL NULL
    (Python [None]); [Some (-1)] is the sentinel. *)
Abbreviation tstamp := (option Z).

(** A row [(revnum, revision, timestamp)], written [(revnum, (revision,
    timestamp))]. *)
Abbreviation cset_entry := (Z * (rev_id * tstamp))%type.

Abbreviation csetLog_table := (gmap Z (rev_id * tstamp)).

Definition entry_revnum (e : cset_entry) : Z := e.1.
Definition entry_revision (e : cset_entry) : rev_id := e.2.1.
Definition entry_timestamp (e : cset_entry) : tstamp := e.2.2.

(** Python's [sorted(l, key=...)] with an integer key: a stable sort. *)
Fixpoint sorted_insert {A} (key : A → Z) (x : A) (l : list A) : list A :=
  match l with
  | [] => [x]
  | h :: t => if bool_decide (key x ≤ key h) then x :: l
              else h :: sorted_insert key x t
  end.

Definition sorted {A} (key : A → Z) (l : list A) : list A :=
  foldr (sorted_insert key) [] l.

(** Rows of the table in scan order (ascending rowid). *)
Definition select_all (t : csetLog_table) : list cset_entry :=
  sorted fst (map_to_list t).

(** [SELECT max(revnum) FROM csetLog]: NULL on the empty table. *)
Definition max_of (l : list Z) : option Z :=
  foldr (λ k acc, Some (match acc with None => k | Some m => Z.max k m end))
        None l.

Definition select_max_revnum (t : csetLog_table) : option Z :=
  max_of (select_all t).*1.

(** [SELECT min(revnum) FROM csetLog]. *)
Definition min_of (l : list Z) : option Z :=
  foldr (λ k acc, Some (match acc with None => k | Some m => Z.min k m end))
        None l.

Definition select_min_revnum (t : csetLog_table) : option Z :=
  min_of (select_all t).*1.

(** [Clogger.revnum]: the current maximum, not its successor. *)
Definition revnum (t : csetLog_table) : option Z := select_max_revnum t.

(** [get_tip]: [SELECT max(revnum) as revnum, revision FROM csetLog]; the
    bare column comes from the row that holds the maximum. *)
Definition get_tip (t : csetLog_table) : option Z * option rev_id :=
  match select_max_revnum t with
  | None => (None, None)
  | Some k => (Some k, fst <$> t !! k)
  end.

(** [get_tail]: the same with [min]. *)
Definition get_tail (t : csetLog_table) : option Z * option rev_id :=
  match select_min_revnum t with
  | None => (None, None)
  | Some k => (Some k, fst <$> t !! k)
  end.

(** Modelled from the spec: the SQL wrapper [tuid.sql] (its [transaction],
    [get_one], [get], [query], [execute] and the binding of the [?]
    parameters) is not among the sources.  [get_one] is the store's
    lookup: the first row of the result, [None] when there is none, and a
    transaction that raises leaves the table as it was.  In
    [_get_one_revision] and [_get_one_revnum] below the parameter is a
    revision and the row of one column is given by its column, as the
    workers use them; the facade, which hands tuples and rows on, goes
    through [_get_one_revnum_py]. *)
Definition get_one {A} (result : list A) : option A := head result.

(** [_get_one_revision]: [SELECT revision FROM csetLog WHERE revision=?]
    with the revision of the given entry. *)
Definition _get_one_revision {K} (t : csetLog_table)
    (cset_entry : K * (rev_id * tstamp)) : option rev_id :=
  get_one (entry_revision <$>
           filter (λ e, entry_revision e = cset_entry.2.1) (select_all t)).

(** [_get_one_revnum]: [SELECT revnum FROM csetLog WHERE revision=?]. *)
Definition _get_one_revnum (t : csetLog_table) (rev : rev_id) : option Z :=
  get_one (entry_revnum <$>
           filter (λ e, entry_revision e = rev) (select_all t)).

(** [_get_revnum_range]: rows [(revnum, revision)] with
    [low_num <= revnum <= high_num]. *)
Definition _get_revnum_range (t : csetLog_table) (revnum1 revnum2 : Z)
    : list (Z * rev_id) :=
  let high_num := Z.max revnum1 revnum2 in
  let low_num := Z.min revnum1 revnum2 in
  (λ e, (entry_revnum e, entry_revision e)) <$>
  filter (λ e, low_num ≤ entry_revnum e ∧ entry_revnum e ≤ high_num)
         (select_all t).

(** ** SQL statements on csetLog *)

(** What a call does: it returns, or an exception propagates. *)
Inductive error : Type :=
  | IntegrityError   (* UNIQUE constraint failed: csetLog.revnum *)
  | OperationalError (* malformed statement *)
  | TypeError        (* subscript of None, comparison of int and tuple *)
  | IndexError       (* index of an empty list *)
  | InterfaceError.  (* a parameter that cannot be bound *)

Inductive outcome (A : Type) : Type :=
  | Returned (a : A)
  | Raised (e : error).
Arguments Returned {A} a.
Arguments Raised {A} e.

Global Instance error_eq_dec : EqDecision error.
Proof. solve_decision. Defined.
Global Instance outcome_eq_dec {A} `{EqDecision A} : EqDecision (outcome A).
Proof. solve_decision. Defined.

(** The rowid an [INTEGER PRIMARY KEY] column receives when the inserted
    value is NULL: one more than the largest rowid, 1 on an empty table
    (rowids stay far below the largest 64-bit integer here). *)
Definition next_rowid (t : csetLog_table) : Z :=
  match select_max_revnum t with
  | None => 1
  | Some m => m + 1
  end.

(** One row of [INSERT INTO csetLog (revnum, revision, timestamp) VALUES
    ...]: a NULL revnum is replaced by [next_rowid]; a revnum already in
    the table violates the primary key. *)
Definition insert_row (t : csetLog_table)
    (e : option Z * (rev_id * tstamp)) : option csetLog_table :=
  match e.1 with
  | None => Some (<[next_rowid t := e.2]> t)
  | Some k =>
      match t !! k with
      | Some _ => None
      | None => Some (<[k := e.2]> t)
      end
  end.

(** A multi-row [INSERT]: the rows in order; the first conflict aborts
    the statement. *)
Definition insert_values (t : csetLog_table)
    (rows : list (option Z * (rev_id * tstamp)))
    : option csetLog_table :=
  foldl (λ acc e, acc ≫= λ t', insert_row t' e) (Some t) rows.

(** [INSERT OR REPLACE]: a row with the same revnum is replaced. *)
Definition insert_or_replace (t : csetLog_table) (rows : list cset_entry)
    : csetLog_table :=
  foldl (λ acc e, <[e.1 := e.2]> acc) t rows.

(** [DELETE FROM csetLog WHERE revision IN (...)]. *)
Definition delete_revision_in (revs : list rev_id) (t : csetLog_table)
    : csetLog_table :=
  filter (λ kv : Z * (rev_id * tstamp), kv.2.1 ∉ revs) t.

(** ** recompute_table_revnums *)

(** The rows are copied in ascending revnum order into a fresh table whose
    revnum column is left to the auto-increment; the fresh table then
    takes the place of csetLog. *)
Definition recompute_table_revnums (t : csetLog_table) : csetLog_table :=
  foldl (λ temp e, <[next_rowid temp := e.2]> temp) ∅ (select_all t).

(** ** add_cset_entries *)

(** [jx.groupby(data, size=n)]: consecutive chunks of at most [n] rows. *)
Fixpoint groupby_aux {A} (fuel size : nat) (data : list A) : list (list A) :=
  match fuel with
  | O => []
  | S fuel' =>
      match data with
      | [] => []
      | _ => take size data :: groupby_aux fuel' size (drop size data)
      end
  end.

Definition groupby {A} (data : list A) (size : nat) : list (list A) :=
  groupby_aux (length data) size data.

(** The formatting loop: one tuple [(revnum, rev, tstamp)] per revision;
    the clock is read once per row ([time_time count] is the reading taken
    in iteration [count]). *)
Definition format_insert_list (time_time : nat → Z) (t : csetLog_table)
    (ordered_rev_list : list rev_id) (timestamp number_forward : bool)
    : list (option Z * (rev_id * tstamp)) :=
  imap (λ count rev,
          let tstamp := if timestamp then time_time count else -1 in
          let revnum := if number_forward then revnum t
                        else Some (- Z.of_nat count) in
          (revnum, (rev, Some tstamp)))
       ordered_rev_list.

(** The transaction: rows whose revision is already in the table are
    dropped, the others are inserted in groups of [SQL_CSET_BATCH_SIZE];
    all lookups come before the first insertion. *)
Definition insert_new_entries (t : csetLog_table)
    (insert_list : list (option Z * (rev_id * tstamp)))
    : option csetLog_table :=
  let fmt_insert_list :=
    filter (λ cset_entry, _get_one_revision t cset_entry = None) insert_list in
  foldl (λ acc tmp_insert_list, acc ≫= λ t', insert_values t' tmp_insert_list)
        (Some t) (groupby fmt_insert_list SQL_CSET_BATCH_SIZE).

(** A failed statement raises out of the transaction, which leaves the
    table as it was, and the renumbering is not reached. *)
Definition add_cset_entries (time_time : nat → Z)
    (ordered_rev_list : list rev_id) (timestamp number_forward : bool)
    (t : csetLog_table) : outcome csetLog_table :=
  let ordered_rev_list :=
    if number_forward then reverse ordered_rev_list else ordered_rev_list in
  let insert_list :=
    format_insert_list time_time t ordered_rev_list timestamp number_forward in
  match insert_new_entries t insert_list with
  | None => Raised IntegrityError
  | Some t' => Returned (recompute_table_revnums t')
  end.

(** The table a caller finds after the call. *)
Definition table_after (t : csetLog_table) (o : outcome csetLog_table)
    : csetLog_table :=
  match o with
  | Returned t' => t'
  | Raised _ => t
  end.

(** ** The Clogger object *)

Record clogger : Type := {
  csetLog : csetLog_table;
  annotations : list (rev_id * string);     (* (revision, annotation) *)
  latestFileMod : list (string * rev_id);   (* (file, revision) *)
  csets_todo_backwards : list (rev_id * bool);
  deletions_todo : list rev_id;
  at_tip : bool;
  disable_backfilling : bool;
  disable_tipfilling : bool;
  disable_deletion : bool;
  disable_maintenance : bool
}.

Definition set_csetLog (t : csetLog_table) (s : clogger) : clogger :=
  {| csetLog := t; annotations := annotations s;
     latestFileMod := latestFileMod s;
     csets_todo_backwards := csets_todo_backwards s;
     deletions_todo := deletions_todo s; at_tip := at_tip s;
     disable_backfilling := disable_backfilling s;
     disable_tipfilling := disable_tipfilling s;
     disable_deletion := disable_deletion s;
     disable_maintenance := disable_maintenance s |}.

Definition set_at_tip (b : bool) (s : clogger) : clogger :=
  {| csetLog := csetLog s; annotations := annotations s;
     latestFileMod := latestFileMod s;
     csets_todo_backwards := csets_todo_backwards s;
     deletions_todo := deletions_todo s; at_tip := b;
     disable_backfilling := disable_backfilling s;
     disable_tipfilling := disable_tipfilling s;
     disable_deletion := disable_deletion s;
     disable_maintenance := disable_maintenance s |}.

Definition set_csets_todo_backwards (q : list (rev_id * bool))
    (s : clogger) : clogger :=
  {| csetLog := csetLog s; annotations := annotations s;
     latestFileMod := latestFileMod s;
     csets_todo_backwards := q;
     deletions_todo := deletions_todo s; at_tip := at_tip s;
     disable_backfilling := disable_backfilling s;
     disable_tipfilling := disable_tipfilling s;
     disable_deletion := disable_deletion s;
     disable_maintenance := disable_maintenance s |}.

Definition set_deletions_todo (q : list rev_id) (s : clogger) : clogger :=
  {| csetLog := csetLog s; annotations := annotations s;
     latestFileMod := latestFileMod s;
     csets_todo_backwards := csets_todo_backwards s;
     deletions_todo := q; at_tip := at_tip s;
     disable_backfilling := disable_backfilling s;
     disable_tipfilling := disable_tipfilling s;
     disable_deletion := disable_deletion s;
     disable_maintenance := disable_maintenance s |}.

Definition set_disable_tipfilling (b : bool) (s : clogger) : clogger :=
  {| csetLog := csetLog s; annotations := annotations s;
     latestFileMod := latestFileMod s;
     csets_todo_backwards := csets_todo_backwards s;
     deletions_todo := deletions_todo s; at_tip := at_tip s;
     disable_backfilling := disable_backfilling s;
     disable_tipfilling := b;
     disable_deletion := disable_deletion s;
     disable_maintenance := disable_maintenance s |}.

(** What a method does besides changing the object: the changelog pages
    it fetches, the waits, the warnings it logs. *)
Inductive event : Type :=
  | GetClog (cursor : string)   (* _get_clog of .../json-log/<cursor> *)
  | Wait (seconds : Z)          (* Till(seconds=...).wait() *)
  | LogWarning.

Global Instance event_eq_dec : EqDecision event.
Proof. solve_decision. Defined.

(** A method: from the object to the result, the object afterwards and
    the events in order; [None] when the given fuel or schedule ends
    before the method does. *)
Definition M (A : Type) : Type :=
  clogger → option (outcome A * clogger * list event).

Global Instance M_ret : MRet M := λ A a s, Some (Returned a, s, []).

Global Instance M_bind : MBind M := λ A B f m s,
  match m s with
  | None => None
  | Some (Raised e, s', ev) => Some (Raised e, s', ev)
  | Some (Returned a, s', ev) =>
      match f a s' with
      | None => None
      | Some (r, s'', ev') => Some (r, s'', ev ++ ev')
      end
  end.

Definition raise {A} (e : error) : M A := λ s, Some (Raised e, s, []).
Definition get_self : M clogger := λ s, Some (Returned s, s, []).
Definition modify_self (f : clogger → clogger) : M unit :=
  λ s, Some (Returned tt, f s, []).
Definition emit (e : event) : M unit := λ s, Some (Returned tt, s, [e]).
Definition out_of_fuel {A} : M A := λ _, None.

(** A table-level call run on the object's csetLog. *)
Definition on_csetLog (f : csetLog_table → outcome csetLog_table) : M unit :=
  λ s, match f (csetLog s) with
       | Returned t' => Some (Returned tt, set_csetLog t' s, [])
       | Raised e => Some (Raised e, s, [])
       end.

(** [_get_clog]: the upstream changelog page that starts at [cursor],
    each changeset by the first 12 characters of its node. *)
Definition _get_clog (json_log : string → list rev_id) (cursor : string)
    : M (list rev_id) :=
  emit (GetClog cursor) ;; mret (json_log cursor).

(** Python slices and truth values. *)
Definition slice_to {A} (l : list A) (stop : Z) : list A :=
  take (Z.to_nat (if bool_decide (stop < 0) then stop + Z.of_nat (length l)
                  else stop)) l.

Definition truthy_str (o : option string) : bool :=
  match o with
  | Some s => negb (bool_decide (s = ""%string))
  | None => false
  end.

Definition truthy_int (o : option Z) : bool :=
  match o with
  | Some n => negb (bool_decide (n = 0))
  | None => false
  end.

(** ** update_tip *)

(** The [for] loop over one page ([clog_csets_list[:-1]]), with its
    [break]: the result is [found_newest_known], [csets_found] and
    [csets_to_add]. *)
Fixpoint scan_tip_page (csets_to_gather : option Z)
    (newest_known_rev : option rev_id) (page : list rev_id)
    (csets_found : Z) (csets_to_add : list rev_id)
    : bool * Z * list rev_id :=
  match page with
  | [] => (false, csets_found, csets_to_add)
  | nodes_cset :: page' =>
      if negb (truthy_int csets_to_gather) then
        if bool_decide (Some nodes_cset = newest_known_rev)
        then (true, csets_found, csets_to_add)
        else scan_tip_page csets_to_gather newest_known_rev page'
               (csets_found + 1) (csets_to_add ++ [nodes_cset])
      else
        if bool_decide (default 0 csets_to_gather ≤ csets_found)
        then (true, csets_found, csets_to_add)
        else scan_tip_page csets_to_gather newest_known_rev page'
               (csets_found + 1) (csets_to_add ++ [nodes_cset])
  end.

(** The [while not found_newest_known] loop: one page per unit of fuel. *)
Fixpoint gather_tip (json_log : string → list rev_id) (fuel : nat)
    (csets_to_gather : option Z) (newest_known_rev : option rev_id)
    (clog_csets_list : list rev_id) (csets_found : Z)
    (csets_to_add : list rev_id) : M (list rev_id) :=
  match fuel with
  | O => out_of_fuel
  | S fuel' =>
      let '(found_newest_known, csets_found', csets_to_add') :=
        scan_tip_page csets_to_gather newest_known_rev
          (slice_to clog_csets_list (-1)) csets_found csets_to_add in
      if found_newest_known then mret csets_to_add'
      else
        match last clog_csets_list with
        | None => raise IndexError
        | Some final_rev =>
            clog_obj ← _get_clog json_log final_rev;
            gather_tip json_log fuel' csets_to_gather newest_known_rev
              clog_obj csets_found' csets_to_add'
        end
  end.

Definition update_tip (min_permanent : Z) (time_time : nat → Z)
    (json_log : string → list rev_id) (fuel : nat) : M bool :=
  clog_obj ← _get_clog json_log "tip";
  self ← get_self;
  let newest_known_rev := (get_tip (csetLog self)).2 in
  match head clog_obj with
  | None => raise IndexError
  | Some first_clog_entry =>
      if bool_decide (newest_known_rev = Some first_clog_entry)
      then mret false
      else
        modify_self (set_at_tip false) ;;
        let csets_to_gather :=
          if negb (truthy_str newest_known_rev) then Some min_permanent
          else None in
        csets_to_add ← gather_tip json_log fuel csets_to_gather
                         newest_known_rev clog_obj 0 [];
        on_csetLog (add_cset_entries time_time csets_to_add false true) ;;
        modify_self (set_at_tip true) ;;
        mret true
  end.

(** ** _fill_in_range *)

(** The first argument of [_fill_in_range]: the changeset to reach, or a
    number of changesets. *)
Inductive parent_arg : Type :=
  | ParentRev (parent_cset : rev_id)
  | ParentCount (parent_cset : Z).

(** The [for] loop over one page ([clog_csets_list[:-1]]). *)
Fixpoint scan_fill_page (parent_cset : parent_arg) (number_forward : bool)
    (page : list rev_id) (csets_found : Z) (csets_to_add : list rev_id)
    : bool * Z * list rev_id :=
  match page with
  | [] => (false, csets_found, csets_to_add)
  | nodes_cset :: page' =>
      if negb number_forward && bool_decide (csets_found ≤ 0) then
        scan_fill_page parent_cset number_forward page'
          (csets_found + 1) csets_to_add
      else
        let at_parent :=
          if number_forward then csets_to_add
          else csets_to_add ++ [nodes_cset] in
        match parent_cset with
        | ParentRev parent =>
            if bool_decide (nodes_cset = parent)
            then (true, csets_found, at_parent)
            else scan_fill_page parent_cset number_forward page'
                   csets_found (csets_to_add ++ [nodes_cset])
        | ParentCount parent =>
            if bool_decide (parent < csets_found + 1)
            then (true, csets_found, at_parent)
            else scan_fill_page parent_cset number_forward page'
                   (csets_found + 1) (csets_to_add ++ [nodes_cset])
        end
  end.

(** The [while not found_parent] loop: one page per unit of fuel. *)
Fixpoint fill_pages (json_log : string → list rev_id) (fuel : nat)
    (parent_cset : parent_arg) (number_forward : bool) (final_rev : string)
    (csets_found : Z) (csets_to_add : list rev_id) : M (list rev_id) :=
  match fuel with
  | O => out_of_fuel
  | S fuel' =>
      clog_csets_list ← _get_clog json_log final_rev;
      let '(found_parent, csets_found', csets_to_add') :=
        scan_fill_page parent_cset number_forward
          (slice_to clog_csets_list (-1)) csets_found csets_to_add in
      if found_parent then mret csets_to_add'
      else
        match last clog_csets_list with
        | None => raise IndexError
        | Some final_rev' =>
            fill_pages json_log fuel' parent_cset number_forward final_rev'
              csets_found' csets_to_add'
        end
  end.

Definition _fill_in_range (time_time : nat → Z)
    (json_log : string → list rev_id) (fuel : nat)
    (parent_cset : parent_arg) (child_cset : string)
    (timestamp number_forward : bool) : M (list rev_id) :=
  csets_to_add ← fill_pages json_log fuel parent_cset number_forward
                   child_cset 0 [];
  on_csetLog (add_cset_entries time_time csets_to_add timestamp
                number_forward) ;;
  mret csets_to_add.

(** ** fill_backward_with_list *)

(** The [for] loop over the requests.  On an empty table there is no
    oldest revision to start from and the changelog URL cannot be built. *)
Fixpoint backfill_requests (time_time : nat → Z)
    (json_log : string → list rev_id) (fuel : nat)
    (requests : list (rev_id * bool)) : M unit :=
  match requests with
  | [] => mret tt
  | (parent_cset, timestamp) :: requests' =>
      self ← get_self;
      match _get_one_revnum (csetLog self) parent_cset with
      | Some _ => backfill_requests time_time json_log fuel requests'
      | None =>
          match (get_tail (csetLog self)).2 with
          | None => raise TypeError
          | Some oldest_revision =>
              _fill_in_range time_time json_log fuel (ParentRev parent_cset)
                oldest_revision timestamp false ;;
              backfill_requests time_time json_log fuel requests'
          end
      end
  end.

(** One pass through the body of the [while] loop; the boolean tells
    whether the loop goes on (the [try] is around the [while]). *)
Definition fill_backward_iteration (time_time : nat → Z)
    (json_log : string → list rev_id) (fuel : nat) (self : clogger)
    : option (bool * clogger * list event) :=
  if bool_decide (length (csets_todo_backwards self) ≤ 0)%nat
     || disable_backfilling self
  then Some (true, self, [Wait CSET_BACKFILL_WAIT_TIME])
  else
    match backfill_requests time_time json_log fuel
            (csets_todo_backwards self) self with
    | None => None
    | Some (Returned _, self', ev) =>
        Some (true, set_csets_todo_backwards [] self', ev)
    | Some (Raised _, self', ev) => Some (false, self', ev ++ [LogWarning])
    end.

(** ** fill_forward_continuous *)

(** One pass through the body of the [while] loop.  The boolean tells
    whether the loop goes on: an exception leaves the loop, since the
    [try] is around the [while]. *)
Definition fill_forward_iteration (min_permanent : Z) (time_time : nat → Z)
    (json_log : string → list rev_id) (fuel : nat)
    (self : clogger) : option (bool * clogger * list event) :=
  let waiting_a_bit := disable_backfilling self in
  if negb waiting_a_bit then
    match update_tip min_permanent time_time json_log fuel self with
    | None => None
    | Some (Returned did_an_update, self', ev) =>
        if negb did_an_update
        then Some (true, self', ev ++ [Wait CSET_TIP_WAIT_TIME])
        else Some (true, self', ev)
    | Some (Raised _, self', ev) => Some (false, self', ev ++ [LogWarning])
    end
  else Some (true, self, [Wait CSET_TIP_WAIT_TIME]).

(** ** csetLog_maintenance *)

(** The body of the first [for] loop, for the row at position [count]
    from the newest: the new row and whether it differs. *)
Definition restore_or_stamp (min_permanent : Z) (time_time : nat → Z)
    (count : nat) (e : cset_entry) : cset_entry * bool :=
  let '(revnum, (revision, timestamp)) := e in
  if bool_decide (Z.of_nat count < min_permanent) then
    if bool_decide (timestamp ≠ Some (-1))
    then ((revnum, (revision, Some (-1))), true)
    else ((revnum, (revision, timestamp)), false)
  else if bool_decide (timestamp = None) (* type(timestamp) != int *)
    then ((revnum, (revision, Some (time_time count))), true)
  else ((revnum, (revision, timestamp)), false).

Definition maintenance_new_data (min_permanent : Z) (time_time : nat → Z)
    (all_data : list cset_entry) : list (cset_entry * bool) :=
  imap (restore_or_stamp min_permanent time_time) (reverse all_data).

(** [all_data[:len(all_data) - MAXIMUM_NONPERMANENT_CSETS]], a Python
    slice: a negative bound counts from the end. *)
Definition maintenance_deleted_data (max_nonpermanent : Z)
    (all_data : list cset_entry) : list cset_entry :=
  slice_to all_data (Z.of_nat (length all_data) - max_nonpermanent).

(** The rows handed to [INSERT OR REPLACE]. *)
Definition maintenance_new_data2 (min_permanent max_nonpermanent : Z)
    (time_time : nat → Z) (all_data : list cset_entry) : list cset_entry :=
  let new_data := (maintenance_new_data min_permanent time_time all_data).*1 in
  let deleted_data := maintenance_deleted_data max_nonpermanent all_data in
  if bool_decide (0 < length deleted_data)%nat
  then list_difference all_data deleted_data  (* set(all_data) - set(deleted_data) *)
  else new_data.

(** One pass through the body of the [while] loop, with
    [UPDATE_VERY_OLD_FRONTIERS] false.  An exception is caught inside the
    loop and logged. *)
Definition csetLog_maintenance_iteration (min_permanent max_nonpermanent : Z)
    (time_time : nat → Z) (self : clogger) : clogger * list event :=
  let waited := [Wait CSET_MAINTENANCE_WAIT_TIME] in
  if bool_decide (0 < length (deletions_todo self))%nat
     || disable_maintenance self
  then (self, waited)
  else
    let all_data := sorted fst (select_all (csetLog self)) in
    let modified :=
      existsb snd (maintenance_new_data min_permanent time_time all_data) in
    let new_data2 :=
      maintenance_new_data2 min_permanent max_nonpermanent time_time all_data in
    let deleted_data := maintenance_deleted_data max_nonpermanent all_data in
    if modified && bool_decide (new_data2 = [])
    then (self, waited ++ [LogWarning])   (* VALUES with no row *)
    else
      let self' :=
        if modified
        then set_csetLog (insert_or_replace (csetLog self) new_data2) self
        else self in
      match last deleted_data with
      | None => (self', waited)
      | Some (_, (delete_overflowing_revstart, _)) =>
          (set_deletions_todo
             (deletions_todo self' ++ [delete_overflowing_revstart]) self',
           waited)
      end.

(** ** csetLog_deleter *)

(** The body of [for first_cset in tmp_deletions]. *)
Definition delete_up_to (first_cset : rev_id) (self : clogger)
    : outcome clogger :=
  match _get_one_revnum (csetLog self) first_cset with
  | None => Raised TypeError
  | Some revnum =>
      let csets_to_del :=
        entry_revision <$>
        filter (λ e, entry_revnum e ≤ revnum) (select_all (csetLog self)) in
      let existing_frontiers :=
        filter (λ r, r ∈ csets_to_del) (latestFileMod self).*2 in
      let latestFileMod' :=
        if bool_decide (0 < length existing_frontiers)%nat
        then filter (λ r, r.2 ∉ existing_frontiers) (latestFileMod self)
        else latestFileMod self in
      let annotations' :=
        filter (λ r, r.1 ∉ csets_to_del) (annotations self) in
      let csetLog' := delete_revision_in csets_to_del (csetLog self) in
      Returned
        {| csetLog := recompute_table_revnums csetLog';
           annotations := annotations';
           latestFileMod := latestFileMod';
           csets_todo_backwards := csets_todo_backwards self;
           deletions_todo := deletions_todo self;
           at_tip := at_tip self;
           disable_backfilling := disable_backfilling self;
           disable_tipfilling := disable_tipfilling self;
           disable_deletion := disable_deletion self;
           disable_maintenance := disable_maintenance self |}
  end.

Fixpoint delete_all (tmp_deletions : list rev_id) (self : clogger)
    : outcome unit * clogger :=
  match tmp_deletions with
  | [] => (Returned tt, self)
  | first_cset :: rest =>
      match delete_up_to first_cset self with
      | Raised e => (Raised e, self)
      | Returned self' => delete_all rest self'
      end
  end.

(** One pass through the body of the [while] loop. *)
Definition csetLog_deleter_iteration (self : clogger)
    : clogger * list event :=
  if bool_decide (length (deletions_todo self) ≤ 0)%nat
     || disable_deletion self
  then (self, [Wait CSET_DELETION_WAIT_TIME])
  else
    match delete_all (deletions_todo self) self with
    | (Returned _, self') => (set_deletions_todo [] self', [])
    | (Raised _, self') => (self', [LogWarning; Wait CSET_DELETION_WAIT_TIME])
    end.

(** ** The query facade *)

(** What the facade hands for a [?] parameter, and what [get_one] gives
    it back for a query of one column: a value, or the 1-tuple
    [(value,)].  A row of one column is such a tuple: lines 51, 63, 107
    and 542 subscript it with [[0]], the facade hands it on as it is. *)
Inductive py_value (A : Type) : Type :=
  | Plain (a : A)
  | Tuple1 (a : A).
Arguments Plain {A} a.
Arguments Tuple1 {A} a.

Global Instance outcome_bind : MBind outcome := λ A B f m,
  match m with
  | Returned a => f a
  | Raised e => Raised e
  end.

(** Modelled from the spec: the parameter of [lookup_by_rev(rev)] is a
    revision, those of [range(lo, hi)] are revnums.  A tuple is neither,
    and the statement it is handed to raises (in sqlite3: a parameter of
    a type that cannot be bound). *)
Definition bind_param {A} (v : py_value A) : outcome A :=
  match v with
  | Plain a => Returned a
  | Tuple1 _ => Raised InterfaceError
  end.

(** [_get_one_revnum] on what the facade hands it, with the row that
    [get_one] returns. *)
Definition _get_one_revnum_py (t : csetLog_table) (rev : py_value rev_id)
    : outcome (option (py_value Z)) :=
  rev ← bind_param rev;
  Returned (Tuple1 <$> _get_one_revnum t rev).

(** [max] and [min] of Python: two tuples compare item by item, an
    integer and a tuple do not compare. *)
Definition py_max (x y : py_value Z) : outcome (py_value Z) :=
  match x, y with
  | Plain a, Plain b => Returned (Plain (Z.max a b))
  | Tuple1 a, Tuple1 b => Returned (Tuple1 (Z.max a b))
  | _, _ => Raised TypeError
  end.

Definition py_min (x y : py_value Z) : outcome (py_value Z) :=
  match x, y with
  | Plain a, Plain b => Returned (Plain (Z.min a b))
  | Tuple1 a, Tuple1 b => Returned (Tuple1 (Z.min a b))
  | _, _ => Raised TypeError
  end.

(** [_get_revnum_range] on what the facade hands it: [(low_num,
    high_num)] are the parameters of the query. *)
Definition _get_revnum_range_py (t : csetLog_table)
    (revnum1 revnum2 : py_value Z) : outcome (list (Z * rev_id)) :=
  high_num ← py_max revnum1 revnum2;
  low_num ← py_min revnum1 revnum2;
  low_num ← bind_param low_num;
  high_num ← bind_param high_num;
  Returned (_get_revnum_range t low_num high_num).

(** A query in a transaction of its own, on the object's csetLog. *)
Definition query_csetLog {A} (f : csetLog_table → outcome A) : M A :=
  λ self, Some (f (csetLog self), self, []).

(** The polling loop of [get_old_cset_revnum]: each round looks up the
    1-tuple [(revision,)] and goes on while the result is not true (a row
    is a tuple that is not empty, which is true).  While the caller
    waits, the other threads run: [schedule] lists, wait after wait, what
    they do to the object in the meantime. *)
Fixpoint poll_revnum (schedule : list (clogger → clogger))
    (revision : rev_id) : M (py_value Z * list (clogger → clogger)) :=
  λ self,
    match _get_one_revnum_py (csetLog self) (Tuple1 revision) with
    | Raised e => Some (Raised e, self, [])
    | Returned (Some revnum) => Some (Returned (revnum, schedule), self, [])
    | Returned None =>
        match schedule with
        | [] => None
        | others :: schedule' =>
            match poll_revnum schedule' revision (others self) with
            | None => None
            | Some (r, self', ev) =>
                Some (r, self', Wait CSET_BACKFILL_WAIT_TIME :: ev)
            end
        end
    end.

Definition get_old_cset_revnum (schedule : list (clogger → clogger))
    (revision : rev_id) : M (py_value Z * list (clogger → clogger)) :=
  modify_self (λ self, set_csets_todo_backwards
                         (csets_todo_backwards self ++ [(revision, true)])
                         self) ;;
  poll_revnum schedule revision.

(** [get_revnnums_from_range]: [revnum1] and [revnum2] are what the
    lookups and [get_old_cset_revnum] return, rows, and they are handed
    to [_get_revnum_range] as they are. *)
Definition get_revnnums_from_range (min_permanent : Z) (time_time : nat → Z)
    (json_log : string → list rev_id) (fuel : nat)
    (schedule : list (clogger → clogger))
    (revision1 revision2 : rev_id) : M (list (Z * rev_id)) :=
  revnum1 ← query_csetLog (λ t, _get_one_revnum_py t (Plain revision1));
  revnum2 ← query_csetLog (λ t, _get_one_revnum_py t (Plain revision2));
  '(revnum1, revnum2, schedule) ←
    match revnum1 with
    | Some revnum1 => mret (revnum1, revnum2, schedule)
    | None =>
        did_an_update ← update_tip min_permanent time_time json_log fuel;
        '(revnum1, revnum2) ←
          (if did_an_update : bool then
             revnum1 ← query_csetLog
                         (λ t, _get_one_revnum_py t (Plain revision1));
             revnum2 ← query_csetLog
                         (λ t, _get_one_revnum_py t (Plain revision2));
             mret (revnum1, revnum2)
           else mret (revnum1, revnum2));
        match revnum1 with
        | Some revnum1 => mret (revnum1, revnum2, schedule)
        | None =>
            '(revnum1, schedule) ← get_old_cset_revnum schedule revision1;
            revnum2 ← query_csetLog
                        (λ t, _get_one_revnum_py t (Plain revision2));
            mret (revnum1, revnum2, schedule)
        end
    end;
  '(revnum2, _) ←
    match revnum2 with
    | Some revnum2 => mret (revnum2, schedule)
    | None => get_old_cset_revnum schedule revision2
    end;
  result ← query_csetLog (λ t, _get_revnum_range_py t revnum1 revnum2);
  mret (sorted fst result).

(** ** __init__ *)

(** The attributes the constructor sets on the object of an opened
    store ([next_revnum] is read by no method and is left out). *)
Definition init_fields (self : clogger) : clogger :=
  {| csetLog := csetLog self; annotations := annotations self;
     latestFileMod := latestFileMod self;
     csets_todo_backwards := []; deletions_todo := []; at_tip := true;
     disable_backfilling := false; disable_tipfilling := false;
     disable_deletion := false; disable_maintenance := false |}.

(** The constructor up to the start of the workers: [init_db] leaves an
    existing csetLog as it is, and a table with fewer than
    [min_permanent] rows is filled from its oldest revision (from the tip
    when it has none) with the default [number_forward=True].
    [Log.error] raises again what the [try] block raised. *)
Definition __init__ (min_permanent : Z) (time_time : nat → Z)
    (json_log : string → list rev_id) (fuel : nat) : M unit :=
  modify_self init_fields ;;
  self ← get_self;
  let numrevs := Z.of_nat (size (csetLog self)) in
  if bool_decide (numrevs < min_permanent) then
    let tmp := (get_tail (csetLog self)).2 in
    let oldest_rev := if truthy_str tmp then default "tip"%string tmp
                      else "tip"%string in
    _fill_in_range time_time json_log fuel
      (ParentCount (min_permanent - numrevs)) oldest_rev false true ;;
    mret tt
  else mret tt.

(** ** Vocabulary of the statements *)

(** Order of two rows by their sort key. *)
Definition key_le {A} (key : A → Z) (x y : A) : Prop := key x ≤ key y.
Definition key_lt {A} (key : A → Z) (x y : A) : Prop := key x < key y.

(** The rows of [l], in order, numbered from 1. *)
Definition renumbered (l : list cset_entry) : list cset_entry :=
  imap (λ i e, (1 + Z.of_nat i, e.2)) l.

(** The revisions of the table in revnum order, and their uniqueness. *)
Definition revisions (t : csetLog_table) : list rev_id :=
  entry_revision <$> select_all t.

Definition unique_revisions (t : csetLog_table) : Prop :=
  NoDup (revisions t).

(** An object with the given csetLog, empty queues and no flag set. *)
Definition clogger_with (t : csetLog_table) : clogger :=
  {| csetLog := t; annotations := []; latestFileMod := [];
     csets_todo_backwards := []; deletions_todo := []; at_tip := true;
     disable_backfilling := false; disable_tipfilling := false;
     disable_deletion := false; disable_maintenance := false |}.

(** The table with the given revisions, oldest first, at revnums 1..N,
    all with the sentinel timestamp. *)
Definition permanent_table (revs : list rev_id) : csetLog_table :=
  list_to_map (imap (λ i r, (1 + Z.of_nat i, (r, Some (-1)))) revs).

(** The revisions of the rows with revnum at most [k]. *)
Definition revisions_up_to (k : Z) (t : csetLog_table) : list rev_id :=
  entry_revision <$> filter (λ e, entry_revnum e ≤ k) (select_all t).

(** The object once [get_old_cset_revnum] has queued its request. *)
Definition enqueue_backfill (revision : rev_id) (self : clogger) : clogger :=
  set_csets_todo_backwards
    (csets_todo_backwards self ++ [(revision, true)]) self.

(** The rows [add_cset_entries] numbers for a batch: going backward the
    revnums 0, -1, -2, ... in the order of the batch, going forward on an
    empty table the revnums 1, 2, ... in the reverse order; the timestamp
    is the clock at the row's count or the sentinel -1. *)
Definition backward_rows (time_time : nat → Z) (timestamp : bool)
    (ordered_rev_list : list rev_id) : list cset_entry :=
  imap (λ count rev,
          (- Z.of_nat count,
           (rev, Some (if timestamp then time_time count else -1))))
       ordered_rev_list.

Definition forward_rows (time_time : nat → Z) (timestamp : bool)
    (ordered_rev_list : list rev_id) : list cset_entry :=
  imap (λ count rev,
          (1 + Z.of_nat count,
           (rev, Some (if timestamp then time_time count else -1))))
       (reverse ordered_rev_list).

(** The rows of the maintenance loop, back in ascending revnum order. *)
Definition maintained_rows (min_permanent : Z) (time_time : nat → Z)
    (all_data : list cset_entry) : list cset_entry :=
  reverse (maintenance_new_data min_permanent time_time all_data).*1.

(** How many rows the slice [all_data[:n - max_nonpermanent]] of a list
    of [n] rows holds when it stays within the list: a negative bound
    counts from the end. *)
Definition deleted_count (max_nonpermanent : Z) (n : nat) : nat :=
  Z.to_nat (if bool_decide (Z.of_nat n - max_nonpermanent < 0)
            then Z.of_nat n - max_nonpermanent + Z.of_nat n
            else Z.of_nat n - max_nonpermanent).

(** ** Concrete tables and changelogs of the scenarios *)

Global Instance unique_revisions_dec t : Decision (unique_revisions t).
Proof. unfold unique_revisions. apply _. Defined.

(** An upstream history, newest first, served in pages of [size]
    changesets: the page at [cursor] starts with [cursor] itself, the page
    at [tip] with the newest changeset. *)
Fixpoint from_cursor (cursor : string) (history : list rev_id) : list rev_id :=
  match history with
  | [] => []
  | node :: older =>
      if bool_decide (node = cursor) then history else from_cursor cursor older
  end.

Definition json_log_of (history : list rev_id) (size : nat) (cursor : string)
    : list rev_id :=
  if bool_decide (cursor = "tip"%string) then take size history
  else take size (from_cursor cursor history).

Definition history_H : list rev_id :=
  ["H"; "G"; "F"; "E"; "D"; "C"; "B"; "A"; "0b"; "0a"]%string.
Definition history_K : list rev_id :=
  (["K"; "J"; "I"]%string ++ history_H).

(** csetLog with D..H at revnums 1..5, timestamps -1. *)
Definition table_DH : csetLog_table :=
  permanent_table ["D"; "E"; "F"; "G"; "H"]%string.

(** Six rows A..F at revnums 1..6, timestamps -1. *)
Definition table_AF : csetLog_table :=
  permanent_table ["A"; "B"; "C"; "D"; "E"; "F"]%string.

(** Six rows with stamps to restore (row 5) and NULLs to stamp. *)
Definition table_mixed : csetLog_table :=
  list_to_map [(1, ("A", None)); (2, ("B", Some 7)); (3, ("C", None));
               (4, ("D", Some (-1))); (5, ("E", Some 9));
               (6, ("F", Some (-1)))]%string.

(** 1001 rows at revnums 1..1001, timestamps -1; the revision of row [i]
    is the decimal numeral of [i]. *)
Definition table_1001 : csetLog_table :=
  permanent_table (pretty <$> seq 1 1001).

(** An object whose dependent tables hold rows for X (revnum 3), Y
    (revnum 2) and for the newer revision V. *)
Definition clogger_XY : clogger :=
  {| csetLog := permanent_table ["W"; "Y"; "X"; "V"; "U"]%string;
     annotations := [("X", "a1"); ("Y", "a2"); ("V", "a3"); ("X", "a4")]%string;
     latestFileMod := [("f.py", "X"); ("g.py", "V")]%string;
     csets_todo_backwards := []; deletions_todo := ["X"%string];
     at_tip := true;
     disable_backfilling := false; disable_tipfilling := false;
     disable_deletion := false; disable_maintenance := false |}.

(** What the backfill worker does to the object during one wait of
    another thread: an iteration of its loop, against the upstream
    history H..A. *)
Definition backfill_worker (self : clogger) : clogger :=
  match fill_backward_iteration (λ _, 1541030400) (json_log_of history_H 6)
          3 self with
  | Some (_, self', _) => self'
  | None => self
  end.

(** Four rows at revnums -1, 0, 4 and 9, as an insertion going backward
    leaves them before the revnums are recomputed. *)
Definition table_gaps : csetLog_table :=
  list_to_map [(-1, ("B", Some 7)); (0, ("C", None));
               (4, ("D", Some (-1))); (9, ("E", Some (-1)))]%string.

(** The revision A in two rows, around B. *)
Definition table_ABAC : csetLog_table :=
  list_to_map [(1, ("A", Some (-1))); (2, ("B", Some (-1)));
               (3, ("A", Some (-1))); (4, ("C", Some (-1)))]%string.

(** * Properties *)

(** ** Sorting *)

Section sorted_facts.
Context {A : Type} (key : A → Z).

Lemma sorted_insert_perm x l : sorted_insert key x l ≡ₚ x :: l.
Proof.
  induction l as [|h t IH]; simpl; [done|].
  case_bool_decide; [done|]. rewrite IH. apply Permutation_swap.
Qed.

Lemma sorted_perm l : sorted key l ≡ₚ l.
Proof.
  induction l as [|h t IH]; simpl; [done|].
  by rewrite sorted_insert_perm, IH.
Qed.

Lemma sorted_insert_le x l :
  StronglySorted (key_le key) l → StronglySorted (key_le key) (sorted_insert key x l).
Proof.
  induction 1 as [|h t Hs IH Hall]; simpl.
  - repeat constructor.
  - case_bool_decide as Hx.
    + constructor; [by constructor|]. constructor; [done|].
      eapply Forall_impl; [exact Hall|]. unfold key_le. intros; lia.
    + constructor; [done|].
      rewrite sorted_insert_perm. constructor; [unfold key_le; lia|done].
Qed.

Lemma sorted_le l : StronglySorted (key_le key) (sorted key l).
Proof.
  induction l; simpl; [constructor|]. by apply sorted_insert_le.
Qed.

Lemma key_le_lt l :
  StronglySorted (key_le key) l → NoDup (key <$> l) → StronglySorted (key_lt key) l.
Proof.
  induction 1 as [|h t Hs IH Hall]; intros Hnd; [constructor|].
  apply NoDup_cons in Hnd as [Hh Hnd]. constructor; [by apply IH|].
  apply Forall_forall. intros y Hy.
  rewrite Forall_forall in Hall. specialize (Hall y Hy).
  unfold key_le, key_lt in *.
  assert (key h ≠ key y); [|lia].
  intros Heq. apply Hh. rewrite Heq. by apply list_elem_of_fmap_2.
Qed.

Lemma key_lt_le l : StronglySorted (key_lt key) l → StronglySorted (key_le key) l.
Proof.
  induction 1 as [|h t Hs IH Hall]; constructor; [done|].
  eapply Forall_impl; [exact Hall|]. unfold key_le, key_lt. intros; lia.
Qed.

Lemma key_lt_NoDup l : StronglySorted (key_lt key) l → NoDup (key <$> l).
Proof.
  induction 1 as [|h t Hs IH Hall]; simpl; constructor; [|done].
  intros (y & Hy & Hin)%list_elem_of_fmap.
  rewrite Forall_forall in Hall. specialize (Hall y Hin).
  unfold key_lt in Hall. lia.
Qed.

Lemma sorted_lt l : NoDup (key <$> l) → StronglySorted (key_lt key) (sorted key l).
Proof.
  intros Hnd. apply key_le_lt; [apply sorted_le|].
  by rewrite sorted_perm.
Qed.

Lemma sorted_id l : StronglySorted (key_le key) l → sorted key l = l.
Proof.
  induction 1 as [|h t Hs IH Hall]; simpl; [done|].
  rewrite IH. destruct t as [|h' t']; simpl; [done|].
  apply Forall_cons in Hall as [Hh _]. by rewrite bool_decide_eq_true_2.
Qed.

Lemma key_lt_unique l1 l2 :
  StronglySorted (key_lt key) l1 → StronglySorted (key_lt key) l2 →
  (∀ x, x ∈ l1 ↔ x ∈ l2) → l1 = l2.
Proof.
  intros H1 H2 Hel.
  apply (StronglySorted_unique_strong (key_lt key)); [|done|done|].
  - unfold key_lt. intros; lia.
  - apply NoDup_Permutation; [| |done].
    + eapply NoDup_fmap_1, key_lt_NoDup, H1.
    + eapply NoDup_fmap_1, key_lt_NoDup, H2.
Qed.
End sorted_facts.

(** ** The table scan *)

Lemma elem_of_select_all (t : csetLog_table) e :
  e ∈ select_all t ↔ t !! e.1 = Some e.2.
Proof.
  unfold select_all. rewrite sorted_perm. destruct e as [k v].
  by rewrite elem_of_map_to_list.
Qed.

Lemma select_all_sorted (t : csetLog_table) :
  StronglySorted (key_lt fst) (select_all t).
Proof. apply sorted_lt, NoDup_fst_map_to_list. Qed.

Lemma select_all_unique (t : csetLog_table) l :
  StronglySorted (key_lt fst) l →
  (∀ e, e ∈ l ↔ t !! e.1 = Some e.2) →
  select_all t = l.
Proof.
  intros Hs Hel. apply (key_lt_unique fst); [apply select_all_sorted|done|].
  intros e. by rewrite elem_of_select_all, Hel.
Qed.

Lemma select_all_empty : select_all (∅ : csetLog_table) = [].
Proof. unfold select_all. by rewrite map_to_list_empty. Qed.

Lemma select_all_length (t : csetLog_table) :
  length (select_all t) = size t.
Proof.
  unfold select_all. rewrite sorted_perm. by rewrite length_map_to_list.
Qed.

Lemma select_all_resorted (t : csetLog_table) :
  sorted fst (select_all t) = select_all t.
Proof. apply sorted_id, key_lt_le, select_all_sorted. Qed.

Lemma key_lt_snoc {A} (key : A → Z) l x :
  StronglySorted (key_lt key) l → Forall (λ y, key y < key x) l →
  StronglySorted (key_lt key) (l ++ [x]).
Proof.
  induction 1 as [|h t Hs IH Hall]; intros Hx; simpl.
  - repeat constructor.
  - apply Forall_cons in Hx as [Hh Hx]. constructor; [by apply IH|].
    apply Forall_app. split; [done|]. by constructor.
Qed.

Lemma select_all_insert_last (t : csetLog_table) k v :
  Forall (λ e, e.1 < k) (select_all t) →
  select_all (<[k:=v]> t) = select_all t ++ [(k, v)].
Proof.
  intros Hall. apply select_all_unique.
  - apply key_lt_snoc; [apply select_all_sorted|done].
  - intros [k' v']. rewrite elem_of_app, elem_of_select_all, list_elem_of_singleton.
    simpl. rewrite Forall_forall in Hall.
    destruct (decide (k = k')) as [->|Hne].
    + rewrite lookup_insert_eq. split.
      * intros [Hin|Heq]; [|congruence].
        specialize (Hall (k', v')). rewrite elem_of_select_all in Hall.
        specialize (Hall Hin). simpl in Hall. lia.
      * intros [= ->]. by right.
    + rewrite lookup_insert_ne by done. split; [|tauto].
      intros [?|?]; [done|congruence].
Qed.

Lemma StronglySorted_filter {A} (R : relation A) (P : A → Prop)
    `{!∀ x, Decision (P x)} l :
  StronglySorted R l → StronglySorted R (filter P l).
Proof.
  induction 1 as [|h t Hs IH Hall]; [constructor|].
  rewrite filter_cons. case_decide; [|done].
  constructor; [done|]. apply Forall_forall.
  intros y [_ Hy]%list_elem_of_filter. rewrite Forall_forall in Hall. auto.
Qed.

Lemma select_all_filter (P : cset_entry → Prop) `{!∀ e, Decision (P e)}
    (t : csetLog_table) :
  select_all (filter P t) = filter P (select_all t).
Proof.
  apply select_all_unique.
  - apply StronglySorted_filter, select_all_sorted.
  - intros [k v]. rewrite list_elem_of_filter, elem_of_select_all. simpl.
    rewrite map_lookup_filter_Some. tauto.
Qed.

Lemma max_of_cons h t :
  max_of (h :: t) = Some (match max_of t with None => h | Some m => Z.max h m end).
Proof. done. Qed.

Lemma max_of_snoc l k :
  Forall (λ x, x < k) l → max_of (l ++ [k]) = Some k.
Proof.
  induction 1 as [|h t Hh Ht IH]; [done|].
  rewrite <- app_comm_cons, max_of_cons, IH. f_equal. lia.
Qed.

Lemma max_of_nil_inv l : max_of l = None → l = [].
Proof. by destruct l. Qed.

Lemma max_of_elem l m : max_of l = Some m → m ∈ l ∧ Forall (λ x, x ≤ m) l.
Proof.
  revert m. induction l as [|h t IH]; [done|].
  intros m. rewrite max_of_cons. destruct (max_of t) as [m'|] eqn:Ht.
  - intros [= <-]. destruct (IH m' eq_refl) as [Hin Hall]. split.
    + destruct (Z.max_spec h m') as [[_ ->]|[_ ->]]; [by right|by left].
    + constructor; [simpl; lia|].
      eapply Forall_impl; [exact Hall|]. simpl. intros; lia.
  - intros [= <-]. apply max_of_nil_inv in Ht as ->.
    split; [by left|]. by repeat constructor.
Qed.

Lemma select_max_revnum_Some (t : csetLog_table) m :
  select_max_revnum t = Some m →
  is_Some (t !! m) ∧ ∀ k, is_Some (t !! k) → k ≤ m.
Proof.
  unfold select_max_revnum. intros [Hin Hall]%max_of_elem. split.
  - apply list_elem_of_fmap in Hin as ([k v] & -> & Hin).
    apply elem_of_select_all in Hin. eauto.
  - intros k [v Hk]. rewrite Forall_forall in Hall. apply Hall.
    apply list_elem_of_fmap. exists (k, v). split; [done|].
    by apply elem_of_select_all.
Qed.

Lemma select_max_revnum_None (t : csetLog_table) :
  select_max_revnum t = None → t = ∅.
Proof.
  unfold select_max_revnum. intros Hn%max_of_nil_inv.
  apply fmap_nil_inv in Hn. apply map_empty. intros k.
  destruct (t !! k) as [v|] eqn:Hk; [|done].
  assert ((k, v) ∈ select_all t) as Hin by by apply elem_of_select_all.
  rewrite Hn in Hin. by apply elem_of_nil in Hin.
Qed.

Lemma next_rowid_fresh (t : csetLog_table) :
  Forall (λ e, e.1 < next_rowid t) (select_all t).
Proof.
  apply Forall_forall. intros [k v] Hin%elem_of_select_all. simpl in *.
  unfold next_rowid. destruct (select_max_revnum t) as [m|] eqn:Hm.
  - apply select_max_revnum_Some in Hm as [_ Hm].
    specialize (Hm k (ltac:(eauto))). lia.
  - apply select_max_revnum_None in Hm as ->. by rewrite lookup_empty in Hin.
Qed.

Lemma next_rowid_lookup (t : csetLog_table) : t !! next_rowid t = None.
Proof.
  destruct (t !! next_rowid t) as [v|] eqn:Hk; [|done].
  pose proof (next_rowid_fresh t) as Hall. rewrite Forall_forall in Hall.
  specialize (Hall (next_rowid t, v)). rewrite elem_of_select_all in Hall.
  specialize (Hall Hk). simpl in Hall. lia.
Qed.

Lemma select_all_autoincrement (t : csetLog_table) v :
  select_all (<[next_rowid t := v]> t) = select_all t ++ [(next_rowid t, v)].
Proof. apply select_all_insert_last, next_rowid_fresh. Qed.

Lemma select_max_revnum_last (t : csetLog_table) :
  select_max_revnum t = last (select_all t).*1.
Proof.
  unfold select_max_revnum.
  pose proof (select_all_sorted t) as Hs.
  induction (select_all t) as [|e l IH] using rev_ind; [done|].
  rewrite fmap_app. simpl. rewrite last_snoc. apply max_of_snoc.
  apply Forall_fmap, Forall_forall. intros x Hx.
  apply (StronglySorted_app_1_elem_of _ _ _ x e Hs Hx). by left.
Qed.

(** recompute *)
Lemma next_rowid_imap (t : csetLog_table) (l : list cset_entry) :
  select_all t = renumbered l →
  next_rowid t = 1 + Z.of_nat (length l).
Proof.
  intros Ht. unfold next_rowid. rewrite select_max_revnum_last, Ht.
  unfold renumbered.
  destruct l as [|e' l' _] using rev_ind; [done|].
  rewrite imap_app, fmap_app. simpl. rewrite last_snoc.
  rewrite length_app. simpl. lia.
Qed.

Lemma recompute_rows_aux (l : list cset_entry) :
  select_all (foldl (λ (temp : csetLog_table) (e : cset_entry),
                       <[next_rowid temp := e.2]> temp) ∅ l) =
  renumbered l.
Proof.
  induction l as [|e l IH] using rev_ind.
  - apply select_all_empty.
  - rewrite foldl_app. cbn [foldl]. rewrite select_all_autoincrement.
    rewrite (next_rowid_imap _ _ IH), IH. unfold renumbered.
    rewrite imap_app. simpl.
    do 3 f_equal. lia.
Qed.

Lemma select_all_recompute (t : csetLog_table) :
  select_all (recompute_table_revnums t) =
  renumbered (select_all t).
Proof. apply recompute_rows_aux. Qed.

(** ** recompute_table_revnums *)

Lemma renumbered_snoc l e :
  renumbered (l ++ [e]) = renumbered l ++ [(1 + Z.of_nat (length l), e.2)].
Proof.
  unfold renumbered. rewrite imap_app. simpl. do 4 f_equal. lia.
Qed.

Lemma renumbered_revnums l :
  (renumbered l).*1 = seqZ 1 (Z.of_nat (length l)).
Proof.
  induction l as [|e l IH] using rev_ind; [done|].
  rewrite renumbered_snoc, fmap_app, IH, length_app. simpl.
  by rewrite Nat.add_1_r, seqZ_S.
Qed.

Lemma renumbered_payload l : (renumbered l).*2 = l.*2.
Proof.
  induction l as [|e l IH] using rev_ind; [done|].
  by rewrite renumbered_snoc, !fmap_app, IH.
Qed.

Lemma renumbered_lookup l i e :
  l !! i = Some e → renumbered l !! i = Some (1 + Z.of_nat i, e.2).
Proof. intros Hi. unfold renumbered. by rewrite list_lookup_imap, Hi. Qed.


(** ** Lists *)

Lemma filter_ext_elem {A} (P Q : A → Prop) `{!∀ x, Decision (P x)}
    `{!∀ x, Decision (Q x)} (l : list A) :
  (∀ x, x ∈ l → (P x ↔ Q x)) → filter P l = filter Q l.
Proof.
  induction l as [|h t IH]; intros Hext; [done|].
  rewrite !filter_cons.
  rewrite IH by (intros x Hx; apply Hext; by right).
  destruct (Hext h) as [H1 H2]; [by left|].
  repeat case_decide; tauto.
Qed.

Lemma filter_all {A} (P : A → Prop) `{!∀ x, Decision (P x)} (l : list A) :
  (∀ x, x ∈ l → P x) → filter P l = l.
Proof.
  induction l as [|h t IH]; intros Hall; [done|].
  rewrite filter_cons, decide_True by (apply Hall; by left).
  f_equal. apply IH. intros x Hx. apply Hall. by right.
Qed.

Lemma NoDup_fmap_elem_inj {A B} (f : A → B) (l : list A) x y :
  NoDup (f <$> l) → x ∈ l → y ∈ l → f x = f y → x = y.
Proof.
  induction l as [|h t IH]; simpl; [by intros _ ?%elem_of_nil|].
  intros [Hh Hnd]%NoDup_cons [->|Hx]%elem_of_cons [->|Hy]%elem_of_cons Hf;
    [done| | |by apply IH].
  - destruct Hh. rewrite Hf. by apply list_elem_of_fmap_2.
  - destruct Hh. rewrite <- Hf. by apply list_elem_of_fmap_2.
Qed.

Lemma fmap_nil_iff {A B} (f : A → B) (l : list A) : f <$> l = [] ↔ l = [].
Proof. split; [apply fmap_nil_inv|by intros ->]. Qed.

(** ** Lookups by revision *)

Lemma elem_of_revisions (t : csetLog_table) rev :
  rev ∈ revisions t ↔ ∃ k ts, t !! k = Some (rev, ts).
Proof.
  unfold revisions. rewrite list_elem_of_fmap. split.
  - intros ([k [r ts]] & -> & Hin). apply elem_of_select_all in Hin. eauto.
  - intros (k & ts & Hk). exists (k, (rev, ts)). split; [done|].
    by apply elem_of_select_all.
Qed.

Lemma unique_revisions_inj (t : csetLog_table) k1 k2 rev ts1 ts2 :
  unique_revisions t →
  t !! k1 = Some (rev, ts1) → t !! k2 = Some (rev, ts2) → k1 = k2.
Proof.
  intros Hu H1 H2.
  assert ((k1, (rev, ts1)) = (k2, (rev, ts2))) as Heq; [|congruence].
  apply (NoDup_fmap_elem_inj entry_revision (select_all t)); [done| | |done];
    by apply elem_of_select_all.
Qed.

Lemma _get_one_revnum_Some (t : csetLog_table) rev k :
  _get_one_revnum t rev = Some k →
  ∃ ts, t !! k = Some (rev, ts) ∧
        ∀ k' ts', t !! k' = Some (rev, ts') → k ≤ k'.
Proof.
  unfold _get_one_revnum, get_one. intros Hhd.
  pose proof (StronglySorted_filter (key_lt fst)
                (λ e, entry_revision e = rev) _ (select_all_sorted t)) as Hs.
  assert (∀ e, e ∈ filter (λ e, entry_revision e = rev) (select_all t) ↔
               t !! e.1 = Some e.2 ∧ e.2.1 = rev) as Hel.
  { intros e. rewrite list_elem_of_filter, elem_of_select_all. tauto. }
  destruct (filter (λ e, entry_revision e = rev) (select_all t))
    as [|[k0 [r0 ts0]] rest]; [done|].
  simpl in Hhd. injection Hhd as <-.
  destruct (Hel (k0, (r0, ts0))) as [[Hk0 Hr0] _]; [by left|].
  simpl in *. subst r0. exists ts0. split; [done|].
  intros k' ts' Hk'.
  destruct (Hel (k', (rev, ts'))) as [_ Hin]. specialize (Hin (conj Hk' eq_refl)).
  apply elem_of_cons in Hin as [[= ->]|Hin]; [done|].
  apply StronglySorted_inv in Hs as [_ Hall]. rewrite Forall_forall in Hall.
  specialize (Hall _ Hin). unfold key_lt in Hall. simpl in Hall. lia.
Qed.

Lemma _get_one_revnum_None (t : csetLog_table) rev :
  _get_one_revnum t rev = None ↔ rev ∉ revisions t.
Proof.
  unfold _get_one_revnum, get_one, revisions.
  rewrite head_None, fmap_nil_iff. split.
  - intros Hnil (e & -> & Hin)%list_elem_of_fmap.
    assert (e ∈ filter (λ e', entry_revision e' = entry_revision e)
                       (select_all t)) as Hf
      by by apply list_elem_of_filter.
    rewrite Hnil in Hf. by apply elem_of_nil in Hf.
  - intros Hno.
    destruct (filter (λ e, entry_revision e = rev) (select_all t))
      as [|e rest] eqn:Hf; [done|].
    assert (e ∈ filter (λ e, entry_revision e = rev) (select_all t)) as Hin
      by (rewrite Hf; by left).
    apply list_elem_of_filter in Hin as [<- Hin].
    destruct Hno. by apply list_elem_of_fmap_2.
Qed.

Lemma _get_one_revnum_present (t : csetLog_table) rev k ts :
  t !! k = Some (rev, ts) →
  ∃ k0 ts0, _get_one_revnum t rev = Some k0 ∧ t !! k0 = Some (rev, ts0) ∧
            ∀ k' ts', t !! k' = Some (rev, ts') → k0 ≤ k'.
Proof.
  intros Hk. destruct (_get_one_revnum t rev) as [k0|] eqn:Hl.
  - apply _get_one_revnum_Some in Hl as (ts0 & H0 & Hmin). eauto.
  - apply _get_one_revnum_None in Hl. destruct Hl.
    apply elem_of_revisions. eauto.
Qed.

Lemma _get_one_revnum_unique (t : csetLog_table) rev k ts :
  unique_revisions t → t !! k = Some (rev, ts) →
  _get_one_revnum t rev = Some k.
Proof.
  intros Hu Hk.
  destruct (_get_one_revnum_present t rev k ts Hk) as (k0 & ts0 & -> & H0 & _).
  f_equal. eapply unique_revisions_inj; eauto.
Qed.

Lemma _get_one_revision_None {K} (t : csetLog_table)
    (e : K * (rev_id * tstamp)) :
  _get_one_revision t e = None ↔ e.2.1 ∉ revisions t.
Proof.
  rewrite <- _get_one_revnum_None.
  unfold _get_one_revision, _get_one_revnum, get_one.
  rewrite !head_None, !fmap_nil_iff. done.
Qed.

(** ** The monad of methods *)

Lemma bind_Returned_inv {A B} (m : M A) (f : A → M B) s b s' ev :
  (m ≫= f) s = Some (Returned b, s', ev) →
  ∃ a s1 ev1 ev2, m s = Some (Returned a, s1, ev1) ∧
                  f a s1 = Some (Returned b, s', ev2) ∧ ev = ev1 ++ ev2.
Proof.
  unfold mbind, M_bind. destruct (m s) as [[[[a|e] s1] ev1]|]; [|done..].
  destruct (f a s1) as [[[r s2] ev2]|] eqn:Hf; [|done].
  intros [= -> -> <-]. by exists a, s1, ev1, ev2.
Qed.

Lemma bind_get_self {A} (f : clogger → M A) s : (get_self ≫= f) s = f s s.
Proof.
  unfold mbind, M_bind, get_self. by destruct (f s s) as [[[r s2] ev2]|].
Qed.

Lemma bind_ret {A B} (a : A) (f : A → M B) s : (mret a ≫= f) s = f a s.
Proof.
  unfold mbind, M_bind, mret, M_ret. by destruct (f a s) as [[[r s2] ev2]|].
Qed.

(** ** The range query *)

Lemma elem_of_get_revnum_range (t : csetLog_table) a b k r :
  (k, r) ∈ _get_revnum_range t a b ↔
  (∃ ts, t !! k = Some (r, ts)) ∧ Z.min a b ≤ k ≤ Z.max a b.
Proof.
  unfold _get_revnum_range. rewrite list_elem_of_fmap. split.
  - intros ([k' [r' ts]] & [= -> ->] & [Hr Hin]%list_elem_of_filter).
    apply elem_of_select_all in Hin. simpl in *. eauto.
  - intros [[ts Hk] Hr]. exists (k, (r, ts)). split; [done|].
    apply list_elem_of_filter. split; [done|]. by apply elem_of_select_all.
Qed.

Lemma _get_revnum_range_sorted (t : csetLog_table) a b :
  StronglySorted (key_lt fst) (_get_revnum_range t a b).
Proof.
  unfold _get_revnum_range.
  apply (StronglySorted_fmap _ (key_lt fst)); [by intros [??] [??]|].
  apply StronglySorted_filter, select_all_sorted.
Qed.

Lemma _get_revnum_range_comm (t : csetLog_table) a b :
  _get_revnum_range t a b = _get_revnum_range t b a.
Proof. unfold _get_revnum_range. by rewrite Z.max_comm, Z.min_comm. Qed.

(** ** The query facade *)

Lemma bind_query_csetLog {A B} (g : csetLog_table → outcome A)
    (f : A → M B) s :
  (query_csetLog g ≫= f) s =
  match g (csetLog s) with
  | Returned a => f a s
  | Raised e => Some (Raised e, s, [])
  end.
Proof.
  unfold mbind, M_bind, query_csetLog.
  destruct (g (csetLog s)) as [a|e]; [|done].
  by destruct (f a s) as [[[r s2] ev2]|].
Qed.

Lemma _get_one_revnum_py_plain (t : csetLog_table) rev :
  _get_one_revnum_py t (Plain rev) = Returned (Tuple1 <$> _get_one_revnum t rev).
Proof. done. Qed.

Lemma _get_one_revnum_py_tuple (t : csetLog_table) rev :
  _get_one_revnum_py t (Tuple1 rev) = Raised InterfaceError.
Proof. done. Qed.

Lemma _get_revnum_range_py_plain (t : csetLog_table) a b :
  _get_revnum_range_py t (Plain a) (Plain b) =
  Returned (_get_revnum_range t a b).
Proof.
  unfold _get_revnum_range_py. simpl. f_equal.
  unfold _get_revnum_range.
  replace (Z.max (Z.min a b) (Z.max a b)) with (Z.max a b) by lia.
  by replace (Z.min (Z.min a b) (Z.max a b)) with (Z.min a b) by lia.
Qed.

Lemma _get_revnum_range_py_rows (t : csetLog_table) a b :
  _get_revnum_range_py t (Tuple1 a) (Tuple1 b) = Raised InterfaceError.
Proof. done. Qed.

Lemma bind_lookup_revnum {B} rev (f : option (py_value Z) → M B) s :
  (query_csetLog (λ t, _get_one_revnum_py t (Plain rev)) ≫= f) s =
  f (Tuple1 <$> _get_one_revnum (csetLog s) rev) s.
Proof. by rewrite bind_query_csetLog. Qed.

(** ** get_old_cset_revnum *)

Lemma poll_revnum_raises schedule revision self :
  poll_revnum schedule revision self = Some (Raised InterfaceError, self, []).
Proof. by destruct schedule. Qed.

Lemma enqueue_then_raise schedule revision self :
  get_old_cset_revnum schedule revision self =
  Some (Raised InterfaceError, enqueue_backfill revision self, []).
Proof.
  unfold get_old_cset_revnum, mbind, M_bind, modify_self.
  by rewrite poll_revnum_raises.
Qed.

(** ** get_revnnums_from_range *)

Lemma range_facade_found min_permanent time_time json_log fuel schedule
    revision1 revision2 self :
  is_Some (_get_one_revnum (csetLog self) revision1) →
  is_Some (_get_one_revnum (csetLog self) revision2) →
  get_revnnums_from_range min_permanent time_time json_log fuel schedule
    revision1 revision2 self = Some (Raised InterfaceError, self, []).
Proof.
  intros [a Ha] [b Hb]. unfold get_revnnums_from_range.
  rewrite bind_lookup_revnum, Ha. cbv beta.
  rewrite bind_lookup_revnum, Hb. cbv beta.
  cbn [fmap option_fmap option_map].
  rewrite !bind_ret, bind_query_csetLog. done.
Qed.

Lemma range_facade_not_returned min_permanent time_time json_log fuel
    schedule revision1 revision2 self result self' ev :
  get_revnnums_from_range min_permanent time_time json_log fuel schedule
    revision1 revision2 self ≠ Some (Returned result, self', ev).
Proof.
  unfold get_revnnums_from_range. intros H.
  rewrite bind_lookup_revnum in H. cbv beta in H.
  rewrite bind_lookup_revnum in H. cbv beta in H.
  apply bind_Returned_inv
    in H as ([[r1 r2] sch] & s1 & ev1 & ev2 & H1 & H2 & _).
  apply bind_Returned_inv
    in H2 as ([r2' sch'] & s2 & ev3 & ev4 & H3 & H4 & _).
  rewrite bind_query_csetLog in H4.
  assert ((∃ a, r1 = Tuple1 a) ∧ ∃ o : option Z, r2 = Tuple1 <$> o)
    as [[a ->] [o ->]].
  { destruct (_get_one_revnum (csetLog self) revision1) as [a|];
      cbn [fmap option_fmap option_map] in H1.
    - injection H1 as <- <- _ _ _. eauto.
    - apply bind_Returned_inv
        in H1 as (did & s3 & ev5 & ev6 & _ & H5 & _).
      apply bind_Returned_inv
        in H5 as ([r1' r2''] & s4 & ev7 & ev8 & H6 & H7 & _).
      assert ((∃ o : option Z, r1' = Tuple1 <$> o) ∧
              ∃ o : option Z, r2'' = Tuple1 <$> o) as [[o1 ->] [o2 ->]].
      { destruct did.
        - rewrite bind_lookup_revnum in H6. cbv beta in H6.
          rewrite bind_lookup_revnum in H6.
          injection H6 as <- <- _ _. eauto.
        - injection H6 as <- <- _ _. split; [by exists None|eauto]. }
      destruct o1 as [a|]; cbn [fmap option_fmap option_map] in H7.
      + injection H7 as <- <- _ _ _. eauto.
      + apply bind_Returned_inv in H7 as (x & s5 & ev9 & ev10 & H8 & _).
        by rewrite enqueue_then_raise in H8. }
  destruct o as [b|]; cbn [fmap option_fmap option_map] in H3.
  - injection H3 as <- _ _ _. by rewrite _get_revnum_range_py_rows in H4.
  - by rewrite enqueue_then_raise in H3.
Qed.

(** ** csetLog_deleter *)

Lemma elem_of_revisions_up_to k (t : csetLog_table) rev :
  rev ∈ revisions_up_to k t ↔ ∃ k' ts, k' ≤ k ∧ t !! k' = Some (rev, ts).
Proof.
  unfold revisions_up_to. rewrite list_elem_of_fmap. split.
  - intros ([k' [r ts]] & -> & [Hle Hin]%list_elem_of_filter).
    apply elem_of_select_all in Hin. exists k', ts. done.
  - intros (k' & ts & Hle & Hk'). exists (k', (rev, ts)). split; [done|].
    apply list_elem_of_filter. split; [done|]. by apply elem_of_select_all.
Qed.

Lemma select_all_delete_revision_in revs (t : csetLog_table) :
  select_all (delete_revision_in revs t) =
  filter (λ e, entry_revision e ∉ revs) (select_all t).
Proof. unfold delete_revision_in. by rewrite select_all_filter. Qed.

Lemma survivors_unique k (t : csetLog_table) :
  unique_revisions t →
  filter (λ e, entry_revision e ∉ revisions_up_to k t) (select_all t) =
  filter (λ e, k < entry_revnum e) (select_all t).
Proof.
  intros Hu. apply filter_ext_elem. intros [k' [r ts]] Hin%elem_of_select_all.
  unfold entry_revision, entry_revnum. simpl in *.
  rewrite elem_of_revisions_up_to. split.
  - intros Hno. destruct (decide (k < k')) as [|Hle]; [done|].
    destruct Hno. exists k', ts. split; [lia|done].
  - intros Hlt (k'' & ts'' & Hle & Hk'').
    assert (k' = k'') by (eapply unique_revisions_inj; eauto). lia.
Qed.

Lemma frontiers_deleted (revs : list rev_id) (lfm : list (string * rev_id)) :
  let existing_frontiers := filter (λ r, r ∈ revs) lfm.*2 in
  (if bool_decide (0 < length existing_frontiers)%nat
   then filter (λ r, r.2 ∉ existing_frontiers) lfm
   else lfm) = filter (λ r, r.2 ∉ revs) lfm.
Proof.
  intros existing_frontiers.
  assert (∀ r, r ∈ lfm → (r.2 ∈ existing_frontiers ↔ r.2 ∈ revs)) as Hex.
  { intros r Hr. unfold existing_frontiers. rewrite list_elem_of_filter.
    split; [tauto|]. intros ?. split; [done|]. by apply list_elem_of_fmap_2. }
  case_bool_decide as Hlen.
  - apply filter_ext_elem. intros r Hr. by rewrite Hex.
  - symmetry. apply filter_all. intros r Hr Hin. apply Hex in Hin; [|done].
    destruct existing_frontiers; [by apply elem_of_nil in Hin|simpl in Hlen; lia].
Qed.

Lemma deleter_iteration_single first_cset self self' :
  deletions_todo self = [first_cset] → disable_deletion self = false →
  delete_up_to first_cset self = Returned self' →
  csetLog_deleter_iteration self = (set_deletions_todo [] self', []).
Proof.
  intros Hq Hd Hdel. unfold csetLog_deleter_iteration. rewrite Hq, Hd.
  rewrite bool_decide_eq_false_2 by (simpl; lia).
  cbn [orb delete_all]. by rewrite Hdel.
Qed.

(** ** csetLog_maintenance *)

Lemma insert_or_replace_id (t : csetLog_table) (l : list cset_entry) :
  (∀ e, e ∈ l → t !! e.1 = Some e.2) → insert_or_replace t l = t.
Proof.
  unfold insert_or_replace. induction l as [|e l IH]; intros Hl; [done|].
  simpl. rewrite insert_id by (apply Hl; by left).
  apply IH. intros e' He'. apply Hl. by right.
Qed.

Lemma maintenance_overflow_new_data2 min_permanent max_nonpermanent time_time
    (all_data : list cset_entry) :
  max_nonpermanent < Z.of_nat (length all_data) →
  maintenance_new_data2 min_permanent max_nonpermanent time_time all_data =
  list_difference all_data (maintenance_deleted_data max_nonpermanent all_data).
Proof.
  intros Hover. unfold maintenance_new_data2.
  case_bool_decide as Hlen; [done|].
  destruct all_data as [|e l]; [done|]. exfalso. apply Hlen.
  unfold maintenance_deleted_data, slice_to.
  rewrite bool_decide_eq_false_2 by lia.
  rewrite length_take. simpl length in *. lia.
Qed.


(** ** add_cset_entries *)

Lemma groupby_aux_concat {A} fuel n (data : list A) :
  (length data ≤ fuel)%nat → concat (groupby_aux fuel (S n) data) = data.
Proof.
  revert data. induction fuel as [|fuel IH]; intros data Hlen.
  - destruct data; [done|simpl in Hlen; lia].
  - destruct data as [|x data]; [done|].
    cbn [groupby_aux concat]. rewrite IH.
    + apply take_drop.
    + rewrite length_drop. simpl in *. lia.
Qed.

Lemma groupby_concat {A} n (data : list A) :
  concat (groupby data (S n)) = data.
Proof. by apply groupby_aux_concat. Qed.

Lemma foldl_bind_None {A B} (f : A → B → option A) (l : list B) :
  foldl (λ acc x, acc ≫= λ a, f a x) None l = None.
Proof. by induction l. Qed.

Lemma revisions_insert_fresh (t : csetLog_table) k v :
  t !! k = None → revisions (<[k:=v]> t) ≡ₚ v.1 :: revisions t.
Proof.
  intros Hk. unfold revisions, select_all.
  rewrite !sorted_perm, map_to_list_insert by done. done.
Qed.

Lemma insert_row_revisions (t t' : csetLog_table) e :
  insert_row t e = Some t' → revisions t' ≡ₚ e.2.1 :: revisions t.
Proof.
  unfold insert_row. destruct e as [[k|] v]; simpl.
  - destruct (t !! k) eqn:Hk; [done|]. intros [= <-].
    by apply revisions_insert_fresh.
  - intros [= <-]. apply revisions_insert_fresh, next_rowid_lookup.
Qed.

Lemma insert_values_revisions rows (t t' : csetLog_table) :
  insert_values t rows = Some t' →
  revisions t' ≡ₚ revisions t ++ ((λ e, e.2.1) <$> rows).
Proof.
  unfold insert_values. revert t.
  induction rows as [|e rows IH]; intros t; simpl.
  - intros [= <-]. by rewrite app_nil_r.
  - destruct (insert_row t e) as [t1|] eqn:He; simpl.
    + intros Hr%IH. rewrite Hr, (insert_row_revisions _ _ _ He).
      simpl. apply Permutation_middle.
    + by rewrite foldl_bind_None.
Qed.

Lemma insert_groups_revisions (groups : list (list (option Z * (rev_id * tstamp))))
    (t t' : csetLog_table) :
  foldl (λ acc g, acc ≫= λ t1, insert_values t1 g) (Some t) groups = Some t' →
  revisions t' ≡ₚ revisions t ++ ((λ e, e.2.1) <$> concat groups).
Proof.
  revert t. induction groups as [|g groups IH]; intros t; simpl.
  - intros [= <-]. by rewrite app_nil_r.
  - destruct (insert_values t g) as [t1|] eqn:Hg; simpl.
    + intros Hr%IH. rewrite Hr, (insert_values_revisions _ _ _ Hg).
      by rewrite fmap_app, app_assoc.
    + by rewrite foldl_bind_None.
Qed.

Lemma insert_new_entries_revisions (t t' : csetLog_table) insert_list :
  insert_new_entries t insert_list = Some t' →
  revisions t' ≡ₚ
  revisions t ++
  ((λ e, e.2.1) <$> filter (λ e, _get_one_revision t e = None) insert_list).
Proof.
  unfold insert_new_entries. intros Hr%insert_groups_revisions.
  change SQL_CSET_BATCH_SIZE with (S 499) in Hr.
  by rewrite groupby_concat in Hr.
Qed.

Lemma revisions_recompute (t : csetLog_table) :
  revisions (recompute_table_revnums t) = revisions t.
Proof.
  assert (∀ l : list cset_entry, entry_revision <$> l = l.*2.*1) as Hc
    by (intros l; by rewrite <- list_fmap_compose).
  unfold revisions.
  by rewrite !Hc, select_all_recompute, renumbered_payload.
Qed.

Lemma format_insert_list_revisions time_time (t : csetLog_table) l ts fwd :
  (λ e, e.2.1) <$> format_insert_list time_time t l ts fwd = l.
Proof.
  unfold format_insert_list.
  induction l as [|r l IH] using rev_ind; [done|].
  by rewrite imap_app, fmap_app, IH.
Qed.

Lemma format_insert_list_forward time_time (t : csetLog_table) l ts e :
  e ∈ format_insert_list time_time t l ts true → e.1 = revnum t.
Proof.
  unfold format_insert_list. intros (i & Hi)%list_elem_of_lookup_1.
  rewrite list_lookup_imap in Hi. destruct (l !! i); [|done].
  by injection Hi as <-.
Qed.

Lemma NoDup_fmap_filter {A B} (f : A → B) (P : A → Prop)
    `{!∀ x, Decision (P x)} (l : list A) :
  NoDup (f <$> l) → NoDup (f <$> filter P l).
Proof.
  induction l as [|x l IH]; [done|].
  rewrite filter_cons. simpl. intros [Hx Hnd]%NoDup_cons.
  case_decide; [|by apply IH]. simpl. apply NoDup_cons. split; [|by apply IH].
  intros (y & Hy & [_ Hin]%list_elem_of_filter)%list_elem_of_fmap.
  apply Hx. rewrite Hy. by apply list_elem_of_fmap_2.
Qed.

Lemma inserted_not_present time_time (t : csetLog_table) l ts fwd e :
  e ∈ filter (λ e, _get_one_revision t e = None)
             (format_insert_list time_time t l ts fwd) ↔
  e ∈ format_insert_list time_time t l ts fwd ∧ e.2.1 ∉ revisions t.
Proof. rewrite list_elem_of_filter, _get_one_revision_None. tauto. Qed.

Lemma add_cset_entries_all_present time_time l ts fwd (t : csetLog_table) :
  (∀ r, r ∈ l → r ∈ revisions t) →
  add_cset_entries time_time l ts fwd t =
  Returned (recompute_table_revnums t).
Proof.
  intros Hall. unfold add_cset_entries, insert_new_entries.
  set (ordered := if fwd then reverse l else l).
  assert (filter (λ e, _get_one_revision t e = None)
            (format_insert_list time_time t ordered ts fwd) = []) as ->; [|done].
  destruct (filter _ _) as [|e rest] eqn:Hf; [done|]. exfalso.
  assert (e ∈ filter (λ e, _get_one_revision t e = None)
            (format_insert_list time_time t ordered ts fwd)) as He
    by (rewrite Hf; by left).
  apply inserted_not_present in He as [He Hnone]. apply Hnone, Hall.
  assert (e.2.1 ∈ ordered) as Hin.
  { rewrite <- (format_insert_list_revisions time_time t ordered ts fwd).
    by apply (list_elem_of_fmap_2 (λ e, e.2.1)). }
  unfold ordered in Hin. destruct fwd; [by rewrite elem_of_reverse in Hin|done].
Qed.

Lemma add_cset_entries_unique time_time l ts fwd (t : csetLog_table) :
  unique_revisions t → NoDup l →
  unique_revisions (table_after t (add_cset_entries time_time l ts fwd t)).
Proof.
  intros Hu Hl. unfold add_cset_entries.
  set (ordered := if fwd then reverse l else l).
  assert (NoDup ordered) as Hord.
  { unfold ordered. destruct fwd; [by rewrite reverse_Permutation|done]. }
  destruct (insert_new_entries t _) as [t'|] eqn:Hins; simpl; [|done].
  unfold unique_revisions. rewrite revisions_recompute.
  rewrite (insert_new_entries_revisions _ _ _ Hins).
  apply NoDup_app. split_and!; [done| |].
  - intros r Hr (e & -> & He)%list_elem_of_fmap.
    apply inserted_not_present in He as [_ He]. done.
  - apply NoDup_fmap_filter. by rewrite format_insert_list_revisions.
Qed.

(** ** csetLog_maintenance: rows with the sentinel *)

Lemma insert_or_replace_snoc (t : csetLog_table) l e :
  insert_or_replace t (l ++ [e]) = <[e.1 := e.2]> (insert_or_replace t l).
Proof. unfold insert_or_replace. by rewrite foldl_app. Qed.

Lemma insert_or_replace_lookup (t : csetLog_table) (l : list cset_entry) k v :
  NoDup l.*1 → (k, v) ∈ l → insert_or_replace t l !! k = Some v.
Proof.
  induction l as [|e l IH] using rev_ind; [by intros _ ?%elem_of_nil|].
  rewrite fmap_app, insert_or_replace_snoc. simpl.
  intros [Hl [Hdisj _]]%NoDup_app [Hin|Hin%list_elem_of_singleton]%elem_of_app.
  - rewrite lookup_insert_ne; [by apply IH|].
    intros Heq. apply (Hdisj k); [|rewrite Heq; by left].
    by apply (list_elem_of_fmap_2 fst l (k, v)).
  - subst e. simpl. by rewrite lookup_insert_eq.
Qed.

Lemma restore_or_stamp_sentinel min_permanent time_time count k r :
  restore_or_stamp min_permanent time_time count (k, (r, Some (-1))) =
  ((k, (r, Some (-1))), false).
Proof. unfold restore_or_stamp. by repeat case_bool_decide. Qed.

Lemma restore_or_stamp_revnum min_permanent time_time count e :
  (restore_or_stamp min_permanent time_time count e).1.1 = e.1.
Proof.
  destruct e as [k [r ts]]. unfold restore_or_stamp.
  by repeat case_bool_decide.
Qed.

Lemma maintenance_new_data_revnums min_permanent time_time all_data :
  (maintenance_new_data min_permanent time_time all_data).*1.*1 =
  (reverse all_data).*1.
Proof.
  unfold maintenance_new_data.
  induction (reverse all_data) as [|e l IH] using rev_ind; [done|].
  rewrite imap_app, !fmap_app, IH. simpl.
  by rewrite restore_or_stamp_revnum.
Qed.

Lemma maintenance_new_data_sentinel min_permanent time_time all_data k r :
  (k, (r, Some (-1))) ∈ all_data →
  (k, (r, Some (-1))) ∈
    (maintenance_new_data min_permanent time_time all_data).*1.
Proof.
  intros (i & Hi)%elem_of_reverse_2%list_elem_of_lookup_1.
  apply (list_elem_of_lookup_2 _ i). unfold maintenance_new_data.
  rewrite list_lookup_fmap, list_lookup_imap, Hi. cbn -[restore_or_stamp].
  by rewrite restore_or_stamp_sentinel.
Qed.

Lemma maintenance_keeps_sentinel min_permanent max_nonpermanent time_time
    self k r :
  csetLog self !! k = Some (r, Some (-1)) →
  csetLog (csetLog_maintenance_iteration min_permanent max_nonpermanent
             time_time self).1 !! k = Some (r, Some (-1)).
Proof.
  intros Hk. unfold csetLog_maintenance_iteration.
  rewrite select_all_resorted.
  set (all_data := select_all (csetLog self)).
  destruct (bool_decide _ || disable_maintenance self); [done|].
  destruct (existsb snd _ && bool_decide (_ = [])); [done|].
  assert (csetLog (if existsb snd (maintenance_new_data min_permanent
                                     time_time all_data)
                   then set_csetLog
                          (insert_or_replace (csetLog self)
                             (maintenance_new_data2 min_permanent
                                max_nonpermanent time_time all_data)) self
                   else self) !! k = Some (r, Some (-1))) as Hres.
  { destruct (existsb snd _); [|done]. simpl.
    unfold maintenance_new_data2. case_bool_decide.
    - rewrite insert_or_replace_id; [done|].
      intros e [He _]%list_elem_of_difference. by apply elem_of_select_all.
    - apply insert_or_replace_lookup.
      + rewrite maintenance_new_data_revnums, reverse_Permutation.
        apply (key_lt_NoDup fst), select_all_sorted.
      + apply maintenance_new_data_sentinel.
        by apply (elem_of_select_all _ (k, (r, Some (-1)))). }
  by destruct (last _) as [[? [? ?]]|].
Qed.

(** ** add_cset_entries: forward numbering *)

Lemma revnum_Some_lookup (t : csetLog_table) m :
  revnum t = Some m → is_Some (t !! m).
Proof. intros Hm. by apply select_max_revnum_Some in Hm as [? _]. Qed.

Lemma groupby_cons {A} (x : A) l n :
  groupby (x :: l) (S n) =
  (x :: take n l) :: groupby_aux (length l) (S n) (drop n l).
Proof. done. Qed.

Lemma insert_values_conflict (t : csetLog_table) k v rest :
  is_Some (t !! k) → insert_values t ((Some k, v) :: rest) = None.
Proof.
  intros [v0 Hk]. unfold insert_values. cbn [foldl].
  unfold insert_row at 2. simpl. rewrite Hk. apply foldl_bind_None.
Qed.

Lemma add_cset_entries_forward_raises time_time l ts (t : csetLog_table) m r :
  revnum t = Some m → r ∈ l → r ∉ revisions t →
  add_cset_entries time_time l ts true t = Raised IntegrityError.
Proof.
  intros Hm Hr Hnew. unfold add_cset_entries, insert_new_entries.
  set (insert_list := format_insert_list time_time t (reverse l) ts true).
  destruct (filter (λ e, _get_one_revision t e = None) insert_list)
    as [|e rest] eqn:Hf.
  - exfalso.
    assert (r ∈ (λ e, e.2.1) <$> insert_list) as (e & -> & He)%list_elem_of_fmap.
    { unfold insert_list. rewrite format_insert_list_revisions.
      by apply elem_of_reverse_2. }
    assert (e ∈ filter (λ e, _get_one_revision t e = None) insert_list) as Hin
      by by apply inserted_not_present.
    rewrite Hf in Hin. by apply elem_of_nil in Hin.
  - assert (e ∈ insert_list) as He.
    { assert (e ∈ filter (λ e, _get_one_revision t e = None) insert_list)
        as Hin by (rewrite Hf; by left).
      by apply inserted_not_present in Hin as [? _]. }
    apply format_insert_list_forward in He.
    destruct e as [rn v]. simpl in He. rewrite Hm in He. subst rn.
    change SQL_CSET_BATCH_SIZE with (S 499). rewrite groupby_cons.
    cbn [foldl]. simpl mbind.
    rewrite insert_values_conflict by by apply revnum_Some_lookup.
    by rewrite foldl_bind_None.
Qed.

(** ** fill_forward_continuous *)

Lemma update_tip_fetches min_permanent time_time json_log fuel self r self' ev :
  update_tip min_permanent time_time json_log fuel self = Some (r, self', ev) →
  head ev = Some (GetClog "tip").
Proof.
  unfold update_tip, _get_clog, mbind, M_bind, emit, mret, M_ret. simpl.
  destruct (_ self) as [[[r0 s0] ev0]|]; [|done]. by intros [= _ _ <-].
Qed.

Lemma fill_forward_iteration_fetches min_permanent time_time json_log fuel
    self continue self' ev :
  disable_backfilling self = false →
  fill_forward_iteration min_permanent time_time json_log fuel self =
    Some (continue, self', ev) →
  head ev = Some (GetClog "tip").
Proof.
  intros Hb. unfold fill_forward_iteration. rewrite Hb. simpl.
  destruct (update_tip _ _ _ _ self) as [[[o s0] ev0]|] eqn:Hu; [|done].
  apply update_tip_fetches in Hu.
  destruct ev0 as [|e0 ev0]; [done|]. simpl in Hu.
  destruct o as [[]|]; by intros [= _ _ <-].
Qed.

(** * The claims *)

(** C1: recompute_table_revnums renumbers the rows 1..N with no gap, in
    ascending order of their previous revnums (the row that was i-th in
    revnum order receives revnum i), and the sequence of (revision,
    timestamp) pairs in revnum order is the same before and after.  The
    revnums of a table state are distinct by the primary key. *)
Theorem recompute_table_revnums_dense (t : csetLog_table) :
  let before := select_all t in
  let after := select_all (recompute_table_revnums t) in
  (before ≡ₚ map_to_list t ∧ StronglySorted (key_lt fst) before) ∧
  (after ≡ₚ map_to_list (recompute_table_revnums t) ∧
   StronglySorted (key_lt fst) after) ∧
  after.*1 = seqZ 1 (Z.of_nat (size t)) ∧
  after.*2 = before.*2 ∧
  (∀ i e, before !! i = Some e →
          recompute_table_revnums t !! (1 + Z.of_nat i) = Some e.2) ∧
  (∀ k, is_Some (recompute_table_revnums t !! k) ↔
        1 ≤ k ≤ Z.of_nat (size t)).
Proof.
  intros before after.
  assert (after = renumbered before) as Hafter
    by apply select_all_recompute.
  assert (length before = size t) as Hlen by apply select_all_length.
  split_and!.
  - apply sorted_perm.
  - apply select_all_sorted.
  - apply sorted_perm.
  - apply select_all_sorted.
  - by rewrite Hafter, renumbered_revnums, Hlen.
  - by rewrite Hafter, renumbered_payload.
  - intros i e Hi.
    apply (elem_of_select_all _ (1 + Z.of_nat i, e.2)).
    fold after. rewrite Hafter.
    eapply list_elem_of_lookup_2, renumbered_lookup, Hi.
  - intros k. split.
    + intros [v Hv].
      assert (k ∈ after.*1) as Hk.
      { apply list_elem_of_fmap. exists (k, v). split; [done|].
        by apply elem_of_select_all. }
      rewrite Hafter, renumbered_revnums, Hlen in Hk.
      apply elem_of_seqZ in Hk. lia.
    + intros Hk.
      assert (k ∈ after.*1) as Hin.
      { rewrite Hafter, renumbered_revnums, Hlen. apply elem_of_seqZ. lia. }
      apply list_elem_of_fmap in Hin as ([k' v] & -> & Hin).
      apply elem_of_select_all in Hin. eauto.
Qed.

(** C2: csetLog_maintenance does not stamp a row that leaves the
    permanent window with the sentinel: the loop body keeps every row
    whose timestamp is -1 as it is, at any position, so a row that has
    timestamp -1 before an iteration has it afterwards; with the module's
    constants and 1001 rows that all carry -1, the oldest row, outside the
    newest 1000, still carries -1 after the cycle and nothing is queued
    for deletion. *)
Theorem maintenance_leaves_sentinel_unstamped :
  (∀ min_permanent time_time count revnum revision,
     restore_or_stamp min_permanent time_time count
       (revnum, (revision, Some (-1))) =
     ((revnum, (revision, Some (-1))), false)) ∧
  (∀ min_permanent max_nonpermanent time_time self k revision,
     csetLog self !! k = Some (revision, Some (-1)) →
     csetLog (csetLog_maintenance_iteration min_permanent max_nonpermanent
                time_time self).1 !! k = Some (revision, Some (-1))) ∧
  let self := clogger_with table_1001 in
  let after := (csetLog_maintenance_iteration MINIMUM_PERMANENT_CSETS
                  MAXIMUM_NONPERMANENT_CSETS (λ _, 1541030400) self).1 in
  length (select_all (csetLog self)) = 1001%nat ∧
  csetLog self !! 1 = Some ("1"%string, Some (-1)) ∧
  csetLog after !! 1 = Some ("1"%string, Some (-1)) ∧
  deletions_todo after = [].
Proof.
  split_and!.
  - intros. apply restore_or_stamp_sentinel.
  - intros. by apply maintenance_keeps_sentinel.
  - by vm_compute.
Qed.

(** C3, as stated, fails: with MIN_PERMANENT = 2 and MAX_NONPERMANENT = 3,
    the cycle on six rows A..F with timestamp -1 does not queue the
    revision of the oldest row. *)
Lemma ageing_scenario_as_stated_fails :
  let after := (csetLog_maintenance_iteration 2 3 (λ _, 1541030400)
                  (clogger_with table_AF)).1 in
  ¬ ((∀ k, k ∈ [5; 6] → ∃ r, csetLog after !! k = Some (r, Some (-1))) ∧
     (∀ k, k ∈ [2; 3; 4] →
           ∃ r, csetLog after !! k = Some (r, Some 1541030400)) ∧
     deletions_todo after = ["A"%string]).
Proof. intros after (_ & _ & Hq). vm_compute in Hq. discriminate Hq. Qed.

(** C3, amended: with MIN_PERMANENT = 2 and MAX_NONPERMANENT = 3, one
    cycle on six rows A..F (revnums 1..6) with timestamp -1 keeps -1 on
    the newest two rows and queues one boundary, the revision C of the
    third-oldest row: the rows scheduled for deletion are the oldest
    6 - 3 = 3. *)
Theorem maintenance_ageing_scenario (time_time : nat → Z) :
  let self := clogger_with table_AF in
  let after := (csetLog_maintenance_iteration 2 3 time_time self).1 in
  select_all (csetLog self) =
    [(1, ("A", Some (-1))); (2, ("B", Some (-1))); (3, ("C", Some (-1)));
     (4, ("D", Some (-1))); (5, ("E", Some (-1)));
     (6, ("F", Some (-1)))]%string ∧
  csetLog after !! 5 = Some ("E"%string, Some (-1)) ∧
  csetLog after !! 6 = Some ("F"%string, Some (-1)) ∧
  size (csetLog after) = 6%nat ∧
  deletions_todo after = ["C"%string] ∧
  _get_one_revnum (csetLog after) "C" = Some 3 ∧
  revisions_up_to 3 (csetLog after) = ["A"; "B"; "C"]%string.
Proof. by vm_compute. Qed.

(** C4: in add_cset_entries with number_forward = true on a non-empty
    table every row of the batch receives the current maximum revnum
    itself, so a batch that holds a revision new to the table ends in the
    violation of the primary key.  With D..H at revnums 1..5 and the new
    changesets K, J, I the three provisional revnums are all 5, the INSERT
    fails, and the tip update ends in that exception with the table as it
    was. *)
Theorem forward_batch_revnums_collide :
  (∀ time_time (t : csetLog_table) l ts,
     (format_insert_list time_time t l ts true).*1 =
     replicate (length l) (revnum t)) ∧
  (∀ time_time l ts (t : csetLog_table) m r,
     revnum t = Some m → r ∈ l → r ∉ revisions t →
     add_cset_entries time_time l ts true t = Raised IntegrityError) ∧
  revnum table_DH = Some 5 ∧
  format_insert_list (λ _, 0) table_DH (reverse ["K"; "J"; "I"]%string)
    false true =
    [(Some 5, ("I", Some (-1))); (Some 5, ("J", Some (-1)));
     (Some 5, ("K", Some (-1)))]%string ∧
  add_cset_entries (λ _, 0) ["K"; "J"; "I"]%string false true table_DH =
    Raised IntegrityError ∧
  ∃ self',
    update_tip 5 (λ _, 0) (json_log_of history_K 6) 3
      (clogger_with table_DH) =
    Some (Raised IntegrityError, self', [GetClog "tip"]) ∧
    select_all (csetLog self') = select_all table_DH ∧
    at_tip self' = false.
Proof.
  split_and!.
  - intros time_time t l ts. unfold format_insert_list.
    induction l as [|r l IH] using rev_ind; [done|].
    rewrite imap_app, fmap_app, IH, length_app. simpl.
    by rewrite Nat.add_1_r, replicate_S_end.
  - intros. by eapply add_cset_entries_forward_raises.
  - by vm_compute.
  - by vm_compute.
  - by vm_compute.
  - eexists. split_and!; by vm_compute.
Qed.

(** C7: the loop of fill_forward_continuous never reads
    disable_tipfilling; the flag it tests is disable_backfilling.  With
    disable_tipfilling set (and disable_backfilling not), an iteration
    fetches the tip page and runs the tip update: on an empty table it
    inserts five rows; on the table D..H with K, J, I upstream it ends in
    the exception of the insertion, which stops the loop.  Whatever
    disable_tipfilling is, an iteration with disable_backfilling unset
    begins by fetching the tip page, and one with disable_backfilling set
    only waits. *)
Theorem tip_worker_ignores_disable_tipfilling :
  (let self := set_disable_tipfilling true (clogger_with ∅) in
   disable_tipfilling self = true ∧
   ∃ self',
     fill_forward_iteration 5 (λ _, 0) (json_log_of history_H 4) 3 self =
     Some (true, self', [GetClog "tip"; GetClog "E"]) ∧
     select_all (csetLog self') = select_all table_DH ∧
     disable_tipfilling self' = true) ∧
  (let self := set_disable_tipfilling true (clogger_with table_DH) in
   disable_tipfilling self = true ∧
   ∃ self',
     fill_forward_iteration 5 (λ _, 0) (json_log_of history_K 6) 3 self =
     Some (false, self', [GetClog "tip"; LogWarning]) ∧
     at_tip self' = false) ∧
  (∀ min_permanent time_time json_log fuel self continue self' ev,
     disable_backfilling self = false →
     fill_forward_iteration min_permanent time_time json_log fuel self =
       Some (continue, self', ev) →
     head ev = Some (GetClog "tip")) ∧
  (∀ min_permanent time_time json_log fuel self,
     disable_backfilling self = true →
     fill_forward_iteration min_permanent time_time json_log fuel self =
     Some (true, self, [Wait CSET_TIP_WAIT_TIME])).
Proof.
  split_and!.
  - split; [done|]. eexists. split_and!; by vm_compute.
  - split; [done|]. eexists. split_and!; by vm_compute.
  - intros. by eapply fill_forward_iteration_fetches.
  - intros ????? Hb. unfold fill_forward_iteration. by rewrite Hb.
Qed.

(** C5, as stated, fails: in the table A, B, A, C at the revnums 1..4
    the boundary B is found at revnum 2, and the deleter's step, which
    deletes by revision, removes the row of A at revnum 3 as well: C alone
    is left, where the rows with revnum > 2 are A and C. *)
Lemma deleter_removes_repeated_revision :
  _get_one_revnum table_ABAC "B" = Some 2 ∧
  filter (λ e, 2 < entry_revnum e) (select_all table_ABAC) =
    [(3, ("A", Some (-1))); (4, ("C", Some (-1)))]%string ∧
  ∃ self',
    delete_up_to "B" (clogger_with table_ABAC) = Returned self' ∧
    select_all (csetLog self') = [(1, ("C", Some (-1)))]%string ∧
    select_all (csetLog self') ≠
      renumbered (filter (λ e, 2 < entry_revnum e) (select_all table_ABAC)).
Proof.
  split_and!; [vm_compute; reflexivity..|].
  eexists. split_and!;
    [vm_compute; reflexivity|vm_compute; reflexivity|compute_done].
Qed.

(** C5, amended: for a boundary first_cset that the lookup finds at
    revnum k, the deleter's step removes from csetLog exactly the rows
    whose revision is the revision of a row with revnum <= k, which are
    exactly the rows with revnum <= k when no revision is in two rows;
    the rows that remain keep their order, revision and timestamp and are
    renumbered 1..M; and annotations and latestFileMod lose exactly the
    rows whose revision is that of a removed changeset. *)
Theorem delete_up_to_removes first_cset self k :
  _get_one_revnum (csetLog self) first_cset = Some k →
  let rows := select_all (csetLog self) in
  let removed := revisions_up_to k (csetLog self) in
  let kept := filter (λ e, entry_revision e ∉ removed) rows in
  ∃ self',
    delete_up_to first_cset self = Returned self' ∧
    select_all (csetLog self') = renumbered kept ∧
    (select_all (csetLog self')).*1 = seqZ 1 (Z.of_nat (length kept)) ∧
    (select_all (csetLog self')).*2 = kept.*2 ∧
    (unique_revisions (csetLog self) →
     kept = filter (λ e, k < entry_revnum e) rows) ∧
    annotations self' = filter (λ r, r.1 ∉ removed) (annotations self) ∧
    latestFileMod self' = filter (λ r, r.2 ∉ removed) (latestFileMod self) ∧
    (∀ rev, rev ∈ removed ↔
            ∃ k' ts, k' ≤ k ∧ csetLog self !! k' = Some (rev, ts)) ∧
    (deletions_todo self = [first_cset] → disable_deletion self = false →
     csetLog_deleter_iteration self = (set_deletions_todo [] self', [])).
Proof.
  intros Hk rows removed kept. unfold delete_up_to. rewrite Hk.
  eexists. split; [done|]. simpl.
  fold (revisions_up_to k (csetLog self)). fold removed.
  assert (select_all (recompute_table_revnums
            (delete_revision_in removed (csetLog self))) =
          renumbered kept) as Hrows
    by by rewrite select_all_recompute, select_all_delete_revision_in.
  split_and!.
  - done.
  - by rewrite Hrows, renumbered_revnums.
  - by rewrite Hrows, renumbered_payload.
  - intros Hu. by apply survivors_unique.
  - done.
  - apply frontiers_deleted.
  - intros rev. apply elem_of_revisions_up_to.
  - intros Hq Hd.
    apply (deleter_iteration_single first_cset); [done|done|].
    unfold delete_up_to. by rewrite Hk.
Qed.

Lemma delete_up_to_removes_witness :
  ∃ self',
    delete_up_to "X" clogger_XY = Returned self' ∧
    select_all (csetLog self') =
      [(1, ("V", Some (-1))); (2, ("U", Some (-1)))]%string ∧
    annotations self' = [("V", "a3")]%string ∧
    latestFileMod self' = [("g.py", "V")]%string.
Proof.
  destruct (delete_up_to_removes "X" clogger_XY 3)
    as (self' & Heq & Hrows & _ & _ & _ & Hann & Hlfm & _ & _).
  - vm_compute. reflexivity.
  - exists self'. rewrite Hrows, Hann, Hlfm.
    split_and!; [exact Heq|vm_compute; reflexivity..].
Defined.

(** C6: the range query, on two revnums, returns exactly the rows whose
    revnum lies between the smaller and the larger one, both ends
    included, each row once, and the same rows when the arguments are
    swapped.  get_revnnums_from_range does not return that range: it
    hands the range query the rows that its lookups returned, not their
    revnums (the other callers subscript the row with [0]), and the query
    cannot bind them.  With both revisions found the call raises there,
    and on no input, whatever path it takes, does it return a result. *)
Theorem get_revnnums_from_range_raises :
  (∀ (t : csetLog_table) a b k r,
     (k, r) ∈ _get_revnum_range t a b ↔
     (∃ ts, t !! k = Some (r, ts)) ∧ Z.min a b ≤ k ≤ Z.max a b) ∧
  (∀ (t : csetLog_table) a b, NoDup (_get_revnum_range t a b)) ∧
  (∀ (t : csetLog_table) a b,
     _get_revnum_range t a b = _get_revnum_range t b a) ∧
  (∀ (t : csetLog_table) a b,
     _get_revnum_range_py t (Plain a) (Plain b) =
       Returned (_get_revnum_range t a b) ∧
     ∃ e, _get_revnum_range_py t (Tuple1 a) (Tuple1 b) = Raised e) ∧
  (∀ min_permanent time_time json_log fuel schedule revision1 revision2
     self,
     is_Some (_get_one_revnum (csetLog self) revision1) →
     is_Some (_get_one_revnum (csetLog self) revision2) →
     ∃ e, get_revnnums_from_range min_permanent time_time json_log fuel
            schedule revision1 revision2 self = Some (Raised e, self, [])) ∧
  (∀ min_permanent time_time json_log fuel schedule revision1 revision2
     self result self' ev,
     get_revnnums_from_range min_permanent time_time json_log fuel
       schedule revision1 revision2 self ≠
     Some (Returned result, self', ev)) ∧
  _get_one_revnum table_DH "H" = Some 5 ∧
  _get_one_revnum table_DH "E" = Some 2 ∧
  _get_revnum_range table_DH 5 2 =
    [(2, "E"); (3, "F"); (4, "G"); (5, "H")]%string ∧
  ∃ e, get_revnnums_from_range 5 (λ _, 0) (json_log_of history_H 6) 3 []
         "H" "E" (clogger_with table_DH) =
       Some (Raised e, clogger_with table_DH, []).
Proof.
  split_and!.
  - intros. apply elem_of_get_revnum_range.
  - intros. eapply NoDup_fmap_1, key_lt_NoDup, _get_revnum_range_sorted.
  - intros. apply _get_revnum_range_comm.
  - intros t a b. split; [apply _get_revnum_range_py_plain|].
    eexists. apply _get_revnum_range_py_rows.
  - intros. eexists. by apply range_facade_found.
  - intros. apply range_facade_not_returned.
  - vm_compute. reflexivity.
  - vm_compute. reflexivity.
  - vm_compute. reflexivity.
  - eexists. vm_compute. reflexivity.
Qed.

(** C8: get_old_cset_revnum appends (revision, true) to the backfill
    queue, but its poll hands the lookup the 1-tuple (revision,) where
    every other caller hands the revision, and the lookup cannot bind it:
    the call raises at its first poll, without a wait, whatever the other
    threads would do, also in a state that holds the revision, where the
    lookup of the revision itself gives the row of its revnum.  With D..H
    stored and A requested, the backfill worker would put A at revnum 1;
    the call has raised before. *)
Theorem get_old_cset_revnum_raises :
  (∀ schedule revision self,
     ∃ e, get_old_cset_revnum schedule revision self =
          Some (Raised e, enqueue_backfill revision self, [])) ∧
  (∀ revision self,
     csets_todo_backwards (enqueue_backfill revision self) =
       csets_todo_backwards self ++ [(revision, true)] ∧
     csetLog (enqueue_backfill revision self) = csetLog self) ∧
  (∀ (t : csetLog_table) revision k ts,
     t !! k = Some (revision, ts) →
     (∃ e, _get_one_revnum_py t (Tuple1 revision) = Raised e) ∧
     ∃ k0 ts0,
       _get_one_revnum_py t (Plain revision) = Returned (Some (Tuple1 k0)) ∧
       t !! k0 = Some (revision, ts0) ∧
       (unique_revisions t → k0 = k)) ∧
  _get_one_revnum
    (csetLog (backfill_worker (enqueue_backfill "A" (clogger_with table_DH))))
    "A" = Some 1 ∧
  ∃ e, get_old_cset_revnum [id; backfill_worker; id] "A"
         (clogger_with table_DH) =
       Some (Raised e, enqueue_backfill "A" (clogger_with table_DH), []).
Proof.
  split_and!.
  - intros. eexists. apply enqueue_then_raise.
  - done.
  - intros t revision k ts Hk.
    split; [eexists; apply _get_one_revnum_py_tuple|].
    destruct (_get_one_revnum_present t revision k ts Hk)
      as (k0 & ts0 & Hl & H0 & _).
    exists k0, ts0. split_and!; [|done|].
    + by rewrite _get_one_revnum_py_plain, Hl.
    + intros Hu. by eapply unique_revisions_inj.
  - vm_compute. reflexivity.
  - eexists. apply enqueue_then_raise.
Qed.

(** C9, as stated, fails: the table D..H has unique revisions, the batch
    [A; A] passes the filter twice (A is not in the table), and after the
    insertion two rows carry the revision A. *)
Lemma add_cset_entries_repeated_revision :
  unique_revisions table_DH ∧
  ∃ t', add_cset_entries (λ _, 0) ["A"; "A"]%string false false table_DH =
        Returned t' ∧
        select_all t' =
          [(1, ("A", Some (-1))); (2, ("A", Some (-1)));
           (3, ("D", Some (-1))); (4, ("E", Some (-1)));
           (5, ("F", Some (-1))); (6, ("G", Some (-1)));
           (7, ("H", Some (-1)))]%string ∧
        ¬ unique_revisions t'.
Proof.
  split; [compute_done|]. eexists. split_and!.
  - vm_compute. reflexivity.
  - vm_compute. reflexivity.
  - compute_done.
Qed.

(** C9, amended: every row of the batch whose revision is already in
    csetLog is dropped before the insertion and no dropped row is
    inserted; a batch that consists only of revisions already present
    leaves the (revision, timestamp) rows, in revnum order, as they were;
    and when the batch itself has no repeated revision and the table has
    none, the table after the call has none either. *)
Theorem add_cset_entries_skips_present (time_time : nat → Z)
    (ordered_rev_list : list rev_id) (timestamp number_forward : bool)
    (t : csetLog_table) :
  let insert_list :=
    format_insert_list time_time t
      (if number_forward then reverse ordered_rev_list else ordered_rev_list)
      timestamp number_forward in
  let fmt_insert_list :=
    filter (λ cset_entry, _get_one_revision t cset_entry = None) insert_list in
  (∀ e, e ∈ fmt_insert_list ↔ e ∈ insert_list ∧ e.2.1 ∉ revisions t) ∧
  (∀ t', insert_new_entries t insert_list = Some t' →
         revisions t' ≡ₚ revisions t ++ ((λ e, e.2.1) <$> fmt_insert_list)) ∧
  ((∀ r, r ∈ ordered_rev_list → r ∈ revisions t) →
   ∃ t', add_cset_entries time_time ordered_rev_list timestamp
           number_forward t = Returned t' ∧
         (select_all t').*2 = (select_all t).*2) ∧
  (unique_revisions t → NoDup ordered_rev_list →
   unique_revisions
     (table_after t (add_cset_entries time_time ordered_rev_list timestamp
                       number_forward t))).
Proof.
  intros insert_list fmt_insert_list. split_and!.
  - intros e. apply inserted_not_present.
  - intros t'. apply insert_new_entries_revisions.
  - intros Hall. eexists. split.
    + by apply add_cset_entries_all_present.
    + by rewrite select_all_recompute, renumbered_payload.
  - intros Hu Hnd. by apply add_cset_entries_unique.
Qed.

Lemma add_cset_entries_skips_present_witness :
  (∃ t', add_cset_entries (λ _, 1541030400) ["H"; "H"; "E"]%string true true
           table_DH = Returned t' ∧
         (select_all t').*2 = (select_all table_DH).*2) ∧
  unique_revisions
    (table_after table_DH
       (add_cset_entries (λ _, 1541030400) ["D"; "C"; "B"]%string true false
          table_DH)) ∧
  revisions
    (table_after table_DH
       (add_cset_entries (λ _, 1541030400) ["D"; "C"; "B"]%string true false
          table_DH)) = ["B"; "C"; "D"; "E"; "F"; "G"; "H"]%string.
Proof.
  split_and!.
  - destruct (add_cset_entries_skips_present (λ _, 1541030400)
                ["H"; "H"; "E"]%string true true table_DH)
      as (_ & _ & Hsame & _).
    apply Hsame. intros r Hr.
    repeat (apply elem_of_cons in Hr as [->|Hr]; [compute_done|]).
    by apply elem_of_nil in Hr.
  - destruct (add_cset_entries_skips_present (λ _, 1541030400)
                ["D"; "C"; "B"]%string true false table_DH)
      as (_ & _ & _ & Huniq).
    apply Huniq; compute_done.
  - vm_compute. reflexivity.
Defined.

(** C10: in a maintenance cycle that finds more rows than
    MAXIMUM_NONPERMANENT_CSETS, the rows handed to INSERT OR REPLACE are
    the rows of the initial snapshot without those scheduled for deletion,
    each of them a row the table already holds, so csetLog is the same
    after the cycle as before it: no restored or stamped timestamp of that
    cycle is written. *)
Theorem maintenance_overflow_not_persisted min_permanent max_nonpermanent
    time_time self :
  let all_data := select_all (csetLog self) in
  let deleted_data := maintenance_deleted_data max_nonpermanent all_data in
  let new_data2 :=
    maintenance_new_data2 min_permanent max_nonpermanent time_time all_data in
  let self' := (csetLog_maintenance_iteration min_permanent max_nonpermanent
                  time_time self).1 in
  max_nonpermanent < Z.of_nat (length all_data) →
  new_data2 = list_difference all_data deleted_data ∧
  (∀ e, e ∈ new_data2 → csetLog self !! e.1 = Some e.2) ∧
  csetLog self' = csetLog self ∧
  (∀ k revision timestamp,
     csetLog self' !! k = Some (revision, timestamp) →
     csetLog self !! k = Some (revision, timestamp)).
Proof.
  intros all_data deleted_data new_data2 self' Hover.
  assert (new_data2 = list_difference all_data deleted_data) as H2
    by by apply maintenance_overflow_new_data2.
  assert (∀ e, e ∈ new_data2 → csetLog self !! e.1 = Some e.2) as Hsub.
  { intros e. rewrite H2. intros [Hin _]%list_elem_of_difference.
    by apply elem_of_select_all. }
  assert (csetLog self' = csetLog self) as Heq.
  { unfold self', csetLog_maintenance_iteration.
    rewrite select_all_resorted. fold all_data. fold new_data2.
    fold deleted_data.
    destruct (bool_decide _ || disable_maintenance self); [done|].
    destruct (existsb snd _ && bool_decide (new_data2 = [])); [done|].
    destruct (existsb snd _); destruct (last deleted_data) as [[? [? ?]]|];
      simpl; by rewrite ?insert_or_replace_id. }
  split_and!; [done|done|done|]. by rewrite Heq.
Qed.

Lemma maintenance_overflow_not_persisted_witness :
  let self := clogger_with table_mixed in
  let self' := (csetLog_maintenance_iteration 2 3 (λ _, 1541030400) self).1 in
  existsb snd (maintenance_new_data 2 (λ _, 1541030400)
                 (select_all (csetLog self))) = true ∧
  csetLog self' = csetLog self ∧
  csetLog self' !! 5 = Some ("E"%string, Some 9) ∧
  csetLog self' !! 1 = Some ("A"%string, None) ∧
  deletions_todo self' = ["C"%string].
Proof.
  intros self self'.
  destruct (maintenance_overflow_not_persisted 2 3 (λ _, 1541030400) self)
    as (_ & _ & Heq & _).
  - vm_compute. reflexivity.
  - split_and!; [vm_compute; reflexivity|exact Heq|vm_compute; reflexivity..].
Defined.

(** * Further properties *)

(** ** Tables and their scans *)

Lemma select_all_inj (t1 t2 : csetLog_table) :
  select_all t1 = select_all t2 → t1 = t2.
Proof.
  intros Heq. apply map_eq. intros k.
  destruct (t1 !! k) as [v1|] eqn:H1, (t2 !! k) as [v2|] eqn:H2; [| | |done].
  - apply (elem_of_select_all _ (k, v1)) in H1. rewrite Heq in H1.
    apply elem_of_select_all in H1. simpl in H1. congruence.
  - apply (elem_of_select_all _ (k, v1)) in H1. rewrite Heq in H1.
    apply elem_of_select_all in H1. simpl in H1. congruence.
  - apply (elem_of_select_all _ (k, v2)) in H2. rewrite <- Heq in H2.
    apply elem_of_select_all in H2. simpl in H2. congruence.
Qed.

Lemma renumbered_dense (l : list cset_entry) :
  l.*1 = seqZ 1 (Z.of_nat (length l)) → renumbered l = l.
Proof.
  intros Hl. apply list_eq. intros i.
  destruct (l !! i) as [[k v]|] eqn:Hi.
  - rewrite (renumbered_lookup _ _ _ Hi). simpl. do 2 f_equal.
    assert (l.*1 !! i = Some k) as Hk by by rewrite list_lookup_fmap, Hi.
    rewrite Hl in Hk. apply lookup_seqZ in Hk. lia.
  - apply lookup_ge_None. apply lookup_ge_None in Hi.
    unfold renumbered. by rewrite length_imap.
Qed.

Lemma recompute_dense (t : csetLog_table) :
  (select_all t).*1 = seqZ 1 (Z.of_nat (size t)) →
  recompute_table_revnums t = t.
Proof.
  intros Hd. apply select_all_inj. rewrite select_all_recompute.
  apply renumbered_dense. by rewrite select_all_length.
Qed.

Lemma size_recompute (t : csetLog_table) :
  size (recompute_table_revnums t) = size t.
Proof.
  rewrite <- !select_all_length, select_all_recompute.
  unfold renumbered. by rewrite length_imap.
Qed.

Lemma recompute_revnums (t : csetLog_table) :
  (select_all (recompute_table_revnums t)).*1 = seqZ 1 (Z.of_nat (size t)).
Proof.
  by rewrite select_all_recompute, renumbered_revnums, select_all_length.
Qed.

Lemma recompute_idemp (t : csetLog_table) :
  recompute_table_revnums (recompute_table_revnums t) =
  recompute_table_revnums t.
Proof. apply recompute_dense. by rewrite recompute_revnums, size_recompute. Qed.

(** X1: recompute_table_revnums is idempotent, and it leaves a table as
    it is exactly when the revnums of the table are already 1..N. *)
Theorem recompute_table_revnums_fixed_point (t : csetLog_table) :
  recompute_table_revnums (recompute_table_revnums t) =
    recompute_table_revnums t ∧
  (recompute_table_revnums t = t ↔
   (select_all t).*1 = seqZ 1 (Z.of_nat (size t))).
Proof.
  split; [apply recompute_idemp|]. split.
  - intros Heq. pose proof (recompute_revnums t) as Hd.
    by rewrite Heq in Hd.
  - apply recompute_dense.
Qed.

(** ** Tip and tail *)

Lemma min_of_cons h t :
  min_of (h :: t) = Some (match min_of t with None => h | Some m => Z.min h m end).
Proof. done. Qed.

Lemma min_of_sorted h (l : list Z) :
  Forall (λ x, h < x) l → min_of (h :: l) = Some h.
Proof.
  intros Hall. rewrite min_of_cons.
  destruct (min_of l) as [m|] eqn:Hm; [|done]. f_equal.
  assert (m ∈ l) as Hin.
  { clear Hall. revert m Hm. induction l as [|x l IH]; [done|].
    intros m. rewrite min_of_cons. destruct (min_of l) as [m'|] eqn:Hm'.
    - intros [= <-]. destruct (Z.min_spec x m') as [[_ ->]|[_ ->]];
        [by left|right; by apply IH].
    - intros [= <-]. by left. }
  rewrite Forall_forall in Hall. specialize (Hall m Hin). lia.
Qed.

Lemma select_min_revnum_head (t : csetLog_table) :
  select_min_revnum t = head (select_all t).*1.
Proof.
  unfold select_min_revnum. pose proof (select_all_sorted t) as Hs.
  destruct (select_all t) as [|e l]; [done|].
  apply StronglySorted_inv in Hs as [_ Hall]. simpl.
  apply (min_of_sorted e.1). by apply Forall_fmap.
Qed.

Lemma get_tip_last (t : csetLog_table) :
  get_tip t = (fst <$> last (select_all t), (fst ∘ snd) <$> last (select_all t)).
Proof.
  unfold get_tip. rewrite select_max_revnum_last, fmap_last.
  destruct (last (select_all t)) as [[k [r ts]]|] eqn:Hl; [|done].
  simpl. apply last_Some_elem_of, elem_of_select_all in Hl. simpl in Hl.
  by rewrite Hl.
Qed.

Lemma get_tail_head (t : csetLog_table) :
  get_tail t = (fst <$> head (select_all t), (fst ∘ snd) <$> head (select_all t)).
Proof.
  unfold get_tail. rewrite select_min_revnum_head.
  destruct (select_all t) as [|[k [r ts]] l] eqn:Hl; [done|].
  simpl. assert ((k, (r, ts)) ∈ select_all t) as Hin by (rewrite Hl; by left).
  apply elem_of_select_all in Hin. simpl in Hin. by rewrite Hin.
Qed.

Lemma last_renumbered (l : list cset_entry) :
  last (renumbered l) =
  (λ e : cset_entry, (Z.of_nat (length l), e.2)) <$> last l.
Proof.
  destruct l as [|e l _] using rev_ind; [done|].
  rewrite renumbered_snoc, !last_snoc, length_app. simpl.
  do 2 f_equal. lia.
Qed.

Lemma head_renumbered (l : list cset_entry) :
  head (renumbered l) = (λ e : cset_entry, (1, e.2)) <$> head l.
Proof. by destruct l. Qed.

(** X2: on a table with at least one row, recompute_table_revnums keeps
    the revisions that get_tip and get_tail report: afterwards the tip is
    at revnum N, which revnum() returns, and the tail at revnum 1. *)
Theorem recompute_keeps_tip_and_tail (t : csetLog_table) :
  t ≠ ∅ →
  get_tip (recompute_table_revnums t) = (Some (Z.of_nat (size t)), (get_tip t).2) ∧
  get_tail (recompute_table_revnums t) = (Some 1, (get_tail t).2) ∧
  is_Some (get_tip t).2 ∧ is_Some (get_tail t).2 ∧
  revnum (recompute_table_revnums t) = Some (Z.of_nat (size t)).
Proof.
  intros Hne.
  assert (select_all t ≠ []) as Hrows.
  { intros Hnil. apply Hne, select_all_inj. by rewrite Hnil, select_all_empty. }
  assert (∃ e, last (select_all t) = Some e) as [e He].
  { destruct (last (select_all t)) eqn:Hl; [eauto|].
    by apply last_None in Hl. }
  assert (∃ e0, head (select_all t) = Some e0) as [e0 He0].
  { destruct (select_all t); [done|eauto]. }
  rewrite !get_tip_last, !get_tail_head, select_all_recompute.
  rewrite last_renumbered, head_renumbered, He, He0, select_all_length.
  split_and!; try done; try by eexists.
  unfold revnum. rewrite select_max_revnum_last, select_all_recompute.
  rewrite fmap_last, last_renumbered, He, select_all_length. done.
Qed.

Lemma recompute_keeps_tip_and_tail_witness :
  get_tip (recompute_table_revnums table_gaps) = (Some 4, Some "E"%string) ∧
  get_tail (recompute_table_revnums table_gaps) = (Some 1, Some "B"%string).
Proof.
  destruct (recompute_keeps_tip_and_tail table_gaps)
    as (Htip & Htail & _); [compute_done|].
  rewrite Htip, Htail. split; vm_compute; reflexivity.
Defined.

(** ** Positions in a sorted scan *)

Lemma sorted_lookup_lt {A} (key : A → Z) (l : list A) i j x y :
  StronglySorted (key_lt key) l → l !! i = Some x → l !! j = Some y →
  (i < j)%nat → key x < key y.
Proof.
  intros Hs Hi Hj Hij.
  rewrite <- (take_drop j l) in Hs.
  apply (StronglySorted_app_1_elem_of _ _ _ x y Hs).
  - apply (list_elem_of_lookup_2 _ i). by rewrite lookup_take_lt.
  - apply (list_elem_of_lookup_2 _ 0%nat). rewrite lookup_drop.
    by rewrite Nat.add_0_r.
Qed.

Lemma filter_none {A} (P : A → Prop) `{!∀ x, Decision (P x)} (l : list A) :
  (∀ x, x ∈ l → ¬ P x) → filter P l = [].
Proof.
  induction l as [|h t IH]; intros Hno; [done|].
  rewrite filter_cons, decide_False by (apply Hno; by left).
  apply IH. intros x Hx. apply Hno. by right.
Qed.

Lemma sorted_filter_le_take {A} (key : A → Z) (l : list A) i e :
  StronglySorted (key_lt key) l → l !! i = Some e →
  filter (λ x, key x ≤ key e) l = take (S i) l.
Proof.
  intros Hs Hi. rewrite <- (take_drop (S i) l) at 1. rewrite filter_app.
  rewrite (filter_all _ (take (S i) l)), (filter_none _ (drop (S i) l)).
  - by rewrite app_nil_r.
  - intros y (j & Hj)%list_elem_of_lookup_1. rewrite lookup_drop in Hj.
    pose proof (sorted_lookup_lt key l i (S i + j) e y Hs Hi Hj). lia.
  - intros y (j & Hj)%list_elem_of_lookup_1.
    apply lookup_take_Some in Hj as [Hj Hlt].
    destruct (decide (j = i)) as [->|Hne]; [by simplify_eq|].
    pose proof (sorted_lookup_lt key l j i y e Hs Hj Hi). lia.
Qed.

Lemma sorted_filter_gt_drop {A} (key : A → Z) (l : list A) i e :
  StronglySorted (key_lt key) l → l !! i = Some e →
  filter (λ x, key e < key x) l = drop (S i) l.
Proof.
  intros Hs Hi. rewrite <- (take_drop (S i) l) at 1. rewrite filter_app.
  rewrite (filter_all _ (drop (S i) l)), (filter_none _ (take (S i) l)).
  - done.
  - intros y (j & Hj)%list_elem_of_lookup_1.
    apply lookup_take_Some in Hj as [Hj Hlt].
    destruct (decide (j = i)) as [->|Hne]; [simplify_eq; lia|].
    pose proof (sorted_lookup_lt key l j i y e Hs Hj Hi). lia.
  - intros y (j & Hj)%list_elem_of_lookup_1. rewrite lookup_drop in Hj.
    pose proof (sorted_lookup_lt key l i (S i + j) e y Hs Hi Hj). lia.
Qed.

(** ** Lookups after compaction *)

Lemma elem_of_renumbered (l : list cset_entry) k v :
  (k, v) ∈ renumbered l ↔ ∃ i e, l !! i = Some e ∧ k = 1 + Z.of_nat i ∧ v = e.2.
Proof.
  unfold renumbered. rewrite list_elem_of_lookup. split.
  - intros (i & Hi). rewrite list_lookup_imap in Hi.
    destruct (l !! i) as [e|] eqn:He; [|done].
    injection Hi as <- <-. eauto.
  - intros (i & e & He & -> & ->). exists i.
    by rewrite list_lookup_imap, He.
Qed.

(** X3: after recompute_table_revnums the lookup of a revision returns the
    number of rows whose revnum was at most the one the lookup returned
    before; a revision that was not found is still not found. *)
Theorem recompute_lookup_rank (t : csetLog_table) rev :
  _get_one_revnum (recompute_table_revnums t) rev =
  (λ k, Z.of_nat (length (filter (λ e, entry_revnum e ≤ k) (select_all t))))
    <$> _get_one_revnum t rev.
Proof.
  destruct (_get_one_revnum t rev) as [k|] eqn:Hk; simpl.
  - apply _get_one_revnum_Some in Hk as (ts & Hk & Hmin).
    apply (elem_of_select_all _ (k, (rev, ts))) in Hk as Hin.
    apply list_elem_of_lookup_1 in Hin as [i Hi].
    rewrite (sorted_filter_le_take fst _ i (k, (rev, ts)))
      by (done || apply select_all_sorted).
    rewrite length_take_le by (apply lookup_lt_Some in Hi; lia).
    assert (recompute_table_revnums t !! (1 + Z.of_nat i) = Some (rev, ts))
      as Hnew.
    { apply (elem_of_select_all _ (1 + Z.of_nat i, (rev, ts))).
      rewrite select_all_recompute. apply elem_of_renumbered.
      by exists i, (k, (rev, ts)). }
    destruct (_get_one_revnum_present _ _ _ _ Hnew)
      as (k' & ts' & -> & Hk' & Hmin').
    f_equal. specialize (Hmin' _ _ Hnew).
    apply (elem_of_select_all _ (k', (rev, ts'))) in Hk'.
    rewrite select_all_recompute in Hk'.
    apply elem_of_renumbered in Hk' as (j & [kj vj] & Hj & -> & Hv).
    simpl in Hv. subst vj.
    assert (k ≤ kj) as Hle.
    { apply (Hmin kj ts').
      apply (elem_of_select_all _ (kj, (rev, ts'))).
      by apply (list_elem_of_lookup_2 _ j). }
    destruct (decide (j < i)%nat) as [Hlt|]; [|lia].
    pose proof (sorted_lookup_lt fst _ j i _ _ (select_all_sorted t) Hj Hi Hlt).
    simpl in *. lia.
  - apply _get_one_revnum_None. rewrite revisions_recompute.
    by apply _get_one_revnum_None.
Qed.

(** ** Inserting rows *)

Lemma filter_fmap {A B} (f : A → B) (P : B → Prop) `{!∀ x, Decision (P x)}
    (l : list A) :
  filter P (f <$> l) = f <$> filter (λ x, P (f x)) l.
Proof.
  induction l as [|x l IH]; [done|].
  cbn [fmap list_fmap]. rewrite !filter_cons, IH. by case_decide.
Qed.

Lemma StronglySorted_reverse {A} (R : relation A) (l : list A) :
  StronglySorted R l → StronglySorted (flip R) (reverse l).
Proof.
  induction 1 as [|x l Hs IH Hall]; [constructor|].
  rewrite reverse_cons. apply StronglySorted_app_2.
  - intros y z Hy ->%list_elem_of_singleton. rewrite elem_of_reverse in Hy.
    rewrite Forall_forall in Hall. by apply Hall.
  - exact IH.
  - repeat constructor.
Qed.

Lemma insert_values_app (t : csetLog_table) rows1 rows2 :
  insert_values t (rows1 ++ rows2) =
  insert_values t rows1 ≫= λ t', insert_values t' rows2.
Proof.
  unfold insert_values. rewrite foldl_app.
  destruct (foldl _ (Some t) rows1) as [t'|]; [done|].
  apply foldl_bind_None.
Qed.

Lemma insert_groups_concat
    (groups : list (list (option Z * (rev_id * tstamp)))) (t : csetLog_table) :
  foldl (λ acc g, acc ≫= λ t1, insert_values t1 g) (Some t) groups =
  insert_values t (concat groups).
Proof.
  revert t. induction groups as [|g groups IH]; intros t; [done|].
  cbn [foldl concat]. rewrite insert_values_app. simpl.
  destruct (insert_values t g) as [t1|]; simpl; [apply IH|].
  apply foldl_bind_None.
Qed.

Lemma insert_new_entries_alt (t : csetLog_table) insert_list :
  insert_new_entries t insert_list =
  insert_values t
    (filter (λ e, _get_one_revision t e = None) insert_list).
Proof.
  unfold insert_new_entries. rewrite insert_groups_concat.
  change SQL_CSET_BATCH_SIZE with (S 499). by rewrite groupby_concat.
Qed.

Lemma insert_or_replace_other (t : csetLog_table) (l : list cset_entry) k :
  k ∉ l.*1 → insert_or_replace t l !! k = t !! k.
Proof.
  induction l as [|e l IH] using rev_ind; [done|].
  rewrite fmap_app, insert_or_replace_snoc. simpl.
  intros [Hk He]%not_elem_of_app.
  rewrite lookup_insert_ne by (intros Heq; apply He; subst k; by left).
  by apply IH.
Qed.

Lemma insert_values_keyed (t : csetLog_table) (l : list cset_entry) :
  NoDup l.*1 → (∀ k, k ∈ l.*1 → t !! k = None) →
  insert_values t ((λ e, (Some e.1, e.2)) <$> l) = Some (insert_or_replace t l).
Proof.
  induction l as [|e l IH] using rev_ind; [done|].
  rewrite !fmap_app. simpl. intros [Hl [Hdisj _]]%NoDup_app Hfree.
  rewrite insert_values_app, insert_or_replace_snoc, IH; [|done|].
  - simpl. unfold insert_values. simpl. unfold insert_row. simpl.
    rewrite insert_or_replace_other, Hfree; [done| |].
    + apply elem_of_app. right. by left.
    + intros Hin. apply (Hdisj e.1 Hin). by left.
  - intros k Hk. apply Hfree, elem_of_app. by left.
Qed.

Lemma select_all_insert_or_replace_before (t : csetLog_table)
    (l : list cset_entry) :
  StronglySorted (flip (key_lt fst)) l →
  (∀ e e', e ∈ l → e' ∈ select_all t → e.1 < e'.1) →
  select_all (insert_or_replace t l) = reverse l ++ select_all t.
Proof.
  intros Hs Hlt.
  assert (StronglySorted (key_lt fst) (reverse l)) as Hrev.
  { apply StronglySorted_reverse in Hs. exact Hs. }
  assert (NoDup l.*1) as Hnd.
  { apply (key_lt_NoDup fst) in Hrev.
    by rewrite fmap_reverse, reverse_Permutation in Hrev. }
  apply select_all_unique.
  - apply StronglySorted_app_2; [|done|apply select_all_sorted].
    intros e e' He He'. rewrite elem_of_reverse in He. by apply Hlt.
  - intros [k v]. simpl. rewrite elem_of_app, elem_of_reverse. split.
    + intros [Hin|Hin].
      * by apply insert_or_replace_lookup.
      * rewrite insert_or_replace_other; [by apply elem_of_select_all in Hin|].
        intros (e & Hk & He)%list_elem_of_fmap. simpl in Hk.
        specialize (Hlt e (k, v) He Hin). simpl in Hlt. lia.
    + intros Hk. destruct (decide (k ∈ l.*1)) as [Hin|Hout].
      * apply list_elem_of_fmap in Hin as ([k' v'] & Hkk & Hin).
        simpl in Hkk. subst k'. left.
        rewrite (insert_or_replace_lookup t l k v' Hnd Hin) in Hk.
        by simplify_eq.
      * right. rewrite insert_or_replace_other in Hk by done.
        by apply (elem_of_select_all _ (k, v)).
Qed.

Lemma backward_rows_snoc time_time ts l r :
  backward_rows time_time ts (l ++ [r]) =
  backward_rows time_time ts l ++
  [(- Z.of_nat (length l),
    (r, Some (if ts then time_time (length l) else -1)))].
Proof.
  unfold backward_rows. rewrite imap_app. simpl.
  by rewrite Nat.add_0_r.
Qed.

Lemma backward_rows_revnum time_time ts l e :
  e ∈ backward_rows time_time ts l → - Z.of_nat (length l) < e.1 ≤ 0.
Proof.
  unfold backward_rows. intros (i & Hi)%list_elem_of_lookup_1.
  rewrite list_lookup_imap in Hi. destruct (l !! i) as [r|] eqn:Hr; [|done].
  injection Hi as <-. simpl. apply lookup_lt_Some in Hr. lia.
Qed.

Lemma backward_rows_sorted time_time ts l :
  StronglySorted (flip (key_lt fst)) (backward_rows time_time ts l).
Proof.
  induction l as [|r l IH] using rev_ind; [constructor|].
  rewrite backward_rows_snoc. apply StronglySorted_app_2.
  - intros e e' He ->%list_elem_of_singleton.
    apply backward_rows_revnum in He. unfold flip, key_lt. simpl. lia.
  - exact IH.
  - repeat constructor.
Qed.

Lemma format_insert_list_backward time_time (t : csetLog_table) l ts :
  format_insert_list time_time t l ts false =
  (λ e : cset_entry, (Some e.1, e.2)) <$> backward_rows time_time ts l.
Proof.
  unfold format_insert_list.
  induction l as [|r l IH] using rev_ind; [done|].
  rewrite backward_rows_snoc, imap_app, fmap_app, IH. simpl.
  by rewrite Nat.add_0_r.
Qed.

Lemma insert_new_entries_backward time_time (t : csetLog_table) l ts :
  (∀ k, is_Some (t !! k) → 0 < k) →
  insert_new_entries t (format_insert_list time_time t l ts false) =
  Some (insert_or_replace t
          (filter (λ e, entry_revision e ∉ revisions t)
                  (backward_rows time_time ts l))).
Proof.
  intros Hpos. rewrite insert_new_entries_alt, format_insert_list_backward.
  rewrite filter_fmap.
  rewrite (filter_ext_elem _ (λ e, entry_revision e ∉ revisions t)).
  - apply insert_values_keyed.
    + rewrite <- reverse_Permutation, <- fmap_reverse.
      apply (key_lt_NoDup fst).
      apply (StronglySorted_reverse (flip (key_lt fst))).
      apply StronglySorted_filter, backward_rows_sorted.
    + intros k (e & -> & [_ He]%list_elem_of_filter)%list_elem_of_fmap.
      apply backward_rows_revnum in He.
      destruct (t !! e.1) eqn:Hk; [|done].
      specialize (Hpos e.1 ltac:(eauto)). lia.
  - intros e _. apply _get_one_revision_None.
Qed.

Lemma backward_insertion_rows time_time l ts (t : csetLog_table) :
  (∀ k, is_Some (t !! k) → 0 < k) →
  let new_rows :=
    filter (λ e, entry_revision e ∉ revisions t)
           (backward_rows time_time ts l) in
  ∃ t',
    add_cset_entries time_time l ts false t = Returned t' ∧
    select_all t' = renumbered (reverse new_rows ++ select_all t) ∧
    size t' = (length new_rows + size t)%nat.
Proof.
  intros Hpos new_rows. unfold add_cset_entries.
  rewrite insert_new_entries_backward by done. fold new_rows.
  eexists. split; [done|].
  assert (select_all (insert_or_replace t new_rows) =
          reverse new_rows ++ select_all t) as Hrows.
  { apply select_all_insert_or_replace_before.
    - apply StronglySorted_filter, backward_rows_sorted.
    - intros e [k v] [_ He]%list_elem_of_filter Hin%elem_of_select_all.
      apply backward_rows_revnum in He. simpl in *.
      specialize (Hpos k ltac:(eauto)). lia. }
  split.
  - by rewrite select_all_recompute, Hrows.
  - rewrite size_recompute, <- !select_all_length, Hrows.
    by rewrite length_app, length_reverse.
Qed.

Lemma positive_revnums (t : csetLog_table) :
  Forall (λ e, 0 < entry_revnum e) (select_all t) →
  ∀ k, is_Some (t !! k) → 0 < k.
Proof.
  rewrite Forall_forall. intros Hall k [v Hk].
  apply (elem_of_select_all _ (k, v)) in Hk. apply (Hall _ Hk).
Qed.

(** X4: on a table whose revnums are all positive, add_cset_entries with
    number_forward=False returns; the table then holds the rows of the
    batch whose revision was absent, the last of the batch first, before
    the old rows, all renumbered from 1. *)
Theorem add_cset_entries_backward time_time l ts (t : csetLog_table) :
  Forall (λ e, 0 < entry_revnum e) (select_all t) →
  let new_rows :=
    filter (λ e, entry_revision e ∉ revisions t)
           (backward_rows time_time ts l) in
  ∃ t',
    add_cset_entries time_time l ts false t = Returned t' ∧
    select_all t' = renumbered (reverse new_rows ++ select_all t) ∧
    size t' = (length new_rows + size t)%nat.
Proof. intros Hpos. by apply backward_insertion_rows, positive_revnums. Qed.

Lemma add_cset_entries_backward_witness :
  ∃ t',
    add_cset_entries (λ _, 1541030400) ["D"; "C"; "B"]%string false false
      table_DH = Returned t' ∧
    select_all t' =
      [(1, ("B", Some (-1))); (2, ("C", Some (-1))); (3, ("D", Some (-1)));
       (4, ("E", Some (-1))); (5, ("F", Some (-1))); (6, ("G", Some (-1)));
       (7, ("H", Some (-1)))]%string.
Proof.
  destruct (add_cset_entries_backward (λ _, 1541030400)
              ["D"; "C"; "B"]%string false table_DH)
    as (t' & Hadd & Hrows & _); [compute_done|].
  exists t'. split; [exact Hadd|]. rewrite Hrows. vm_compute. reflexivity.
Defined.

(** Forward numbering on the empty table. *)

Lemma revnum_empty : revnum (∅ : csetLog_table) = None.
Proof. unfold revnum, select_max_revnum. by rewrite select_all_empty. Qed.

Lemma revisions_empty : revisions (∅ : csetLog_table) = [].
Proof. unfold revisions. by rewrite select_all_empty. Qed.

Lemma format_insert_list_bootstrap time_time l ts :
  format_insert_list time_time ∅ (reverse l) ts true =
  (λ e : cset_entry, (None, e.2)) <$> forward_rows time_time ts l.
Proof.
  unfold format_insert_list, forward_rows. rewrite revnum_empty.
  induction (reverse l) as [|r l' IH] using rev_ind; [done|].
  by rewrite !imap_app, fmap_app, IH.
Qed.

Lemma insert_values_auto (t : csetLog_table) (l : list cset_entry) :
  insert_values t ((λ e : cset_entry, (None, e.2)) <$> l) =
  Some (foldl (λ temp e, <[next_rowid temp := e.2]> temp) t l).
Proof.
  induction l as [|e l IH] using rev_ind; [done|].
  rewrite fmap_app, insert_values_app, IH, foldl_app. done.
Qed.

Lemma forward_rows_dense time_time ts l :
  renumbered (forward_rows time_time ts l) = forward_rows time_time ts l.
Proof.
  unfold forward_rows.
  induction (reverse l) as [|r l' IH] using rev_ind; [done|].
  rewrite imap_app. cbn [imap]. rewrite renumbered_snoc, IH, length_imap.
  simpl. by rewrite Nat.add_0_r.
Qed.

Lemma bootstrap_insertion_rows time_time l ts :
  ∃ t',
    add_cset_entries time_time l ts true ∅ = Returned t' ∧
    select_all t' = forward_rows time_time ts l ∧
    revisions t' = reverse l.
Proof.
  unfold add_cset_entries. rewrite insert_new_entries_alt.
  rewrite format_insert_list_bootstrap.
  rewrite filter_all.
  2:{ intros e _. apply _get_one_revision_None. rewrite revisions_empty.
      apply not_elem_of_nil. }
  rewrite insert_values_auto. eexists. split; [done|].
  assert (select_all
            (recompute_table_revnums
               (foldl (λ (temp : csetLog_table) (e : cset_entry),
                         <[next_rowid temp := e.2]> temp) ∅
                      (forward_rows time_time ts l))) =
          forward_rows time_time ts l) as Hrows.
  { rewrite select_all_recompute, recompute_rows_aux.
    by rewrite !forward_rows_dense. }
  split; [done|]. unfold revisions. rewrite Hrows.
  unfold forward_rows.
  induction (reverse l) as [|r l' IH] using rev_ind; [done|].
  by rewrite imap_app, fmap_app, IH.
Qed.

(** X5: on an empty table add_cset_entries with number_forward=True
    returns, and the batch, given newest first, is stored oldest first at
    the revnums 1..n. *)
Theorem add_cset_entries_bootstrap time_time l ts :
  ∃ t',
    add_cset_entries time_time l ts true ∅ = Returned t' ∧
    select_all t' = forward_rows time_time ts l ∧
    revisions t' = reverse l ∧
    (select_all t').*1 = seqZ 1 (Z.of_nat (length l)).
Proof.
  destruct (bootstrap_insertion_rows time_time l ts)
    as (t' & Hadd & Hrows & Hrevs).
  exists t'. split_and!; [done..|].
  rewrite Hrows, <- forward_rows_dense, renumbered_revnums.
  unfold forward_rows. by rewrite length_imap, length_reverse.
Qed.

(** What a successful insertion leaves. *)

(** X6: when add_cset_entries returns, the revisions of the table are the
    old ones and those of the batch, the lookup of each of them finds a
    row, the revnums are 1..N and the table has not shrunk. *)
Theorem add_cset_entries_returned time_time l ts fwd (t t' : csetLog_table) :
  add_cset_entries time_time l ts fwd t = Returned t' →
  (∀ r, r ∈ revisions t' ↔ r ∈ revisions t ∨ r ∈ l) ∧
  (∀ r, r ∈ l → is_Some (_get_one_revnum t' r)) ∧
  (∀ r, is_Some (_get_one_revnum t r) → is_Some (_get_one_revnum t' r)) ∧
  (select_all t').*1 = seqZ 1 (Z.of_nat (size t')) ∧
  (size t ≤ size t')%nat.
Proof.
  unfold add_cset_entries.
  set (ordered := if fwd then reverse l else l).
  destruct (insert_new_entries t _) as [t1|] eqn:Hins; [|done].
  intros [= <-].
  pose proof (insert_new_entries_revisions _ _ _ Hins) as Hrev.
  assert (∀ r, r ∈ revisions (recompute_table_revnums t1) ↔
               r ∈ revisions t ∨ r ∈ l) as Hmem.
  { intros r. rewrite revisions_recompute, Hrev, elem_of_app.
    rewrite list_elem_of_fmap. split.
    - intros [?|(e & -> & [He _]%inserted_not_present)]; [by left|right].
      assert (e.2.1 ∈ ordered) as Hin.
      { rewrite <- (format_insert_list_revisions time_time t ordered ts fwd).
        by apply (list_elem_of_fmap_2 (λ e, e.2.1)). }
      unfold ordered in Hin.
      destruct fwd; [by rewrite elem_of_reverse in Hin|done].
    - intros [?|Hr]; [by left|].
      destruct (decide (r ∈ revisions t)) as [|Hnew]; [by left|right].
      assert (r ∈ ordered) as Hin.
      { unfold ordered. destruct fwd; [by apply elem_of_reverse_2|done]. }
      rewrite <- (format_insert_list_revisions time_time t ordered ts fwd)
        in Hin.
      apply list_elem_of_fmap in Hin as (e & -> & He).
      exists e. split; [done|]. by apply inserted_not_present. }
  assert (∀ (tt : csetLog_table) r,
            is_Some (_get_one_revnum tt r) ↔ r ∈ revisions tt) as Hlook.
  { intros tt r. rewrite <- not_eq_None_Some, _get_one_revnum_None.
    split; [apply dec_stable|tauto]. }
  split_and!.
  - done.
  - intros r Hr. apply Hlook, Hmem. by right.
  - intros r Hr%Hlook. apply Hlook, Hmem. by left.
  - by rewrite recompute_revnums, size_recompute.
  - rewrite size_recompute, <- !select_all_length.
    assert (length (revisions t1) = length (select_all t1)) as <-
      by apply length_fmap.
    assert (length (revisions t) = length (select_all t)) as <-
      by apply length_fmap.
    rewrite Hrev, length_app. lia.
Qed.

Lemma add_cset_entries_returned_witness :
  revisions
    (table_after table_DH
       (add_cset_entries (λ _, 1541030400) ["C"; "B"]%string true false
          table_DH)) = ["B"; "C"; "D"; "E"; "F"; "G"; "H"]%string ∧
  ∀ r, r ∈ ["C"; "B"]%string →
       is_Some (_get_one_revnum
                  (table_after table_DH
                     (add_cset_entries (λ _, 1541030400) ["C"; "B"]%string
                        true false table_DH)) r).
Proof.
  split; [vm_compute; reflexivity|].
  destruct (add_cset_entries_returned (λ _, 1541030400) ["C"; "B"]%string
              true false table_DH
              (table_after table_DH
                 (add_cset_entries (λ _, 1541030400) ["C"; "B"]%string
                    true false table_DH)))
    as (_ & Hbatch & _); [vm_compute; reflexivity|].
  exact Hbatch.
Defined.

(** ** update_tip *)

Lemma bind_get_clog {A} json_log cursor (f : list rev_id → M A) s :
  (_get_clog json_log cursor ≫= f) s =
  match f (json_log cursor) s with
  | None => None
  | Some (r, s', ev) => Some (r, s', GetClog cursor :: ev)
  end.
Proof. unfold _get_clog, mbind, M_bind, emit, mret, M_ret. simpl. done. Qed.

Lemma bind_modify_self {A} g (f : unit → M A) s :
  (modify_self g ≫= f) s = f tt (g s).
Proof.
  unfold mbind, M_bind, modify_self. by destruct (f tt (g s)) as [[[??]?]|].
Qed.

Lemma bind_on_csetLog_Returned {A} g (f : unit → M A) s t' :
  g (csetLog s) = Returned t' →
  (on_csetLog g ≫= f) s = f tt (set_csetLog t' s).
Proof.
  intros Hg. unfold mbind, M_bind, on_csetLog. rewrite Hg.
  by destruct (f tt _) as [[[??]?]|].
Qed.

Lemma slice_to_single {A} (c : A) : slice_to [c] (-1) = [].
Proof. reflexivity. Qed.

Lemma gather_tip_single_page json_log fuel csets_to_gather newest_known_rev
    c csets_found csets_to_add self :
  json_log c = [c] →
  gather_tip json_log fuel csets_to_gather newest_known_rev [c]
    csets_found csets_to_add self = None.
Proof.
  intros Hc. revert self.
  induction fuel as [|fuel IH]; intros self; [done|].
  cbn [gather_tip]. rewrite slice_to_single. cbn [scan_tip_page last].
  rewrite bind_get_clog, Hc. by rewrite IH.
Qed.

Lemma scan_tip_page_gather (n : Z) newest_known_rev page csets_found
    csets_to_add :
  n ≠ 0 → 0 ≤ n - csets_found →
  (Z.to_nat (n - csets_found) < length page)%nat →
  scan_tip_page (Some n) newest_known_rev page csets_found csets_to_add =
  (true, n, csets_to_add ++ take (Z.to_nat (n - csets_found)) page).
Proof.
  intros Hn. revert csets_found csets_to_add.
  induction page as [|x page IH]; intros cf ca Hle Hlen; [simpl in Hlen; lia|].
  cbn [scan_tip_page truthy_int negb default].
  rewrite (bool_decide_eq_false_2 (n = 0)) by done. cbn [negb].
  case_bool_decide as Hc; simpl in Hc.
  - assert (cf = n) as -> by lia. rewrite Z.sub_diag. simpl.
    by rewrite app_nil_r.
  - rewrite IH by (simpl in Hlen; lia).
    replace (Z.to_nat (n - cf)) with (S (Z.to_nat (n - (cf + 1)))) by lia.
    simpl. by rewrite <- app_assoc.
Qed.

(** X7: on an empty csetLog, when the first page of json-log/tip holds
    more than MIN + 1 changesets, update_tip fetches that page only,
    stores its first MIN changesets oldest first at the revnums 1..MIN
    with timestamp -1, sets at_tip and returns True. *)
Theorem update_tip_bootstrap min_permanent time_time json_log fuel self :
  csetLog self = ∅ → 0 < min_permanent →
  (Z.to_nat min_permanent + 1 < length (json_log "tip"%string))%nat →
  let csets_to_add := take (Z.to_nat min_permanent) (json_log "tip"%string) in
  ∃ t',
    add_cset_entries time_time csets_to_add false true ∅ = Returned t' ∧
    select_all t' = forward_rows time_time false csets_to_add ∧
    update_tip min_permanent time_time json_log (S fuel) self =
    Some (Returned true, set_at_tip true (set_csetLog t' (set_at_tip false self)),
          [GetClog "tip"]).
Proof.
  intros Hempty Hmp Hlen csets_to_add.
  destruct (bootstrap_insertion_rows time_time csets_to_add false)
    as (t' & Hadd & Hrows & _).
  exists t'. split_and!; [done|done|].
  unfold update_tip. rewrite bind_get_clog, bind_get_self, Hempty.
  assert ((get_tip (∅ : csetLog_table)).2 = None) as ->.
  { unfold get_tip, select_max_revnum. by rewrite select_all_empty. }
  destruct (json_log "tip"%string) as [|first page] eqn:Hpage;
    [simpl in Hlen; lia|].
  cbn [head]. rewrite bool_decide_eq_false_2 by done.
  rewrite bind_modify_self. cbn [truthy_str negb].
  unfold mbind at 1. unfold M_bind. cbn [gather_tip].
  rewrite scan_tip_page_gather.
  - rewrite Z.sub_0_r. cbn [app].
    assert (take (Z.to_nat min_permanent) (slice_to (first :: page) (-1)) =
            csets_to_add) as ->.
    { unfold slice_to, csets_to_add. rewrite bool_decide_eq_true_2 by lia.
      rewrite take_take. f_equal. simpl length in *. lia. }
    unfold mret at 1. unfold M_ret.
    rewrite (bind_on_csetLog_Returned _ _ _ t')
      by (simpl; by rewrite Hempty).
    rewrite bind_modify_self. done.
  - lia.
  - lia.
  - unfold slice_to. rewrite bool_decide_eq_true_2 by lia.
    rewrite length_take. simpl length in *. lia.
Qed.

Lemma update_tip_bootstrap_witness :
  ∃ t',
    update_tip 3 (λ _, 1541030400) (json_log_of history_H 6) 1
      (clogger_with ∅) =
      Some (Returned true,
            set_at_tip true
              (set_csetLog t' (set_at_tip false (clogger_with ∅))),
            [GetClog "tip"]) ∧
    select_all t' =
      [(1, ("F", Some (-1))); (2, ("G", Some (-1)));
       (3, ("H", Some (-1)))]%string.
Proof.
  destruct (update_tip_bootstrap 3 (λ _, 1541030400)
              (json_log_of history_H 6) 0 (clogger_with ∅))
    as (t' & _ & Hrows & Hrun); [reflexivity|lia|vm_compute; lia|].
  exists t'. split; [exact Hrun|]. rewrite Hrows. vm_compute. reflexivity.
Defined.

(** ** csetLog_maintenance *)

Lemma set_csetLog_same self : set_csetLog (csetLog self) self = self.
Proof. by destruct self. Qed.

Lemma sorted_by_keys (l1 l2 : list cset_entry) :
  l1.*1 = l2.*1 → StronglySorted (key_lt fst) l1 →
  StronglySorted (key_lt fst) l2.
Proof.
  revert l2. induction l1 as [|e1 l1 IH]; intros [|e2 l2] Hk Hs;
    try done; try constructor.
  all: injection Hk as Hk1 Hk; apply StronglySorted_inv in Hs as [Hs Hall].
  - by apply IH.
  - apply Forall_forall. intros y Hy. unfold key_lt. rewrite <- Hk1.
    apply (list_elem_of_fmap_2 fst) in Hy.
    assert (fst <$> l1 = fst <$> l2) as Hk' by exact Hk.
    rewrite <- Hk' in Hy.
    apply list_elem_of_fmap in Hy as (x & -> & Hx).
    rewrite Forall_forall in Hall. by apply Hall.
Qed.
Lemma restore_or_stamp_revision min_permanent time_time count e :
  (restore_or_stamp min_permanent time_time count e).1.2.1 = e.2.1.
Proof.
  destruct e as [k [r ts]]. unfold restore_or_stamp.
  by repeat case_bool_decide.
Qed.

Lemma restore_or_stamp_unmodified min_permanent time_time count e :
  (restore_or_stamp min_permanent time_time count e).2 = false →
  (restore_or_stamp min_permanent time_time count e).1 = e.
Proof.
  destruct e as [k [r ts]]. unfold restore_or_stamp.
  by repeat case_bool_decide.
Qed.

Lemma maintained_rows_revnums min_permanent time_time all_data :
  (maintained_rows min_permanent time_time all_data).*1 = all_data.*1.
Proof.
  unfold maintained_rows.
  rewrite fmap_reverse, maintenance_new_data_revnums.
  by rewrite fmap_reverse, reverse_involutive.
Qed.

Lemma maintained_rows_lookup min_permanent time_time all_data count e :
  reverse all_data !! count = Some e →
  reverse (maintained_rows min_permanent time_time all_data) !! count =
  Some (restore_or_stamp min_permanent time_time count e).1.
Proof.
  intros He. unfold maintained_rows, maintenance_new_data.
  rewrite reverse_involutive, list_lookup_fmap, list_lookup_imap, He. done.
Qed.

Lemma maintained_rows_unmodified min_permanent time_time all_data :
  existsb snd (maintenance_new_data min_permanent time_time all_data) = false →
  maintained_rows min_permanent time_time all_data = all_data.
Proof.
  intros Hno. unfold maintained_rows.
  rewrite <- (reverse_involutive all_data) at 2. f_equal.
  apply list_eq. intros i. unfold maintenance_new_data.
  rewrite list_lookup_fmap, list_lookup_imap.
  destruct (reverse all_data !! i) as [e|] eqn:He; [|done]. simpl. f_equal.
  apply restore_or_stamp_unmodified.
  destruct (restore_or_stamp min_permanent time_time i e) as [e' b] eqn:Hr.
  destruct b; [|done]. exfalso.
  assert (existsb snd (maintenance_new_data min_permanent time_time all_data)
          = true) as Hyes; [|congruence].
  apply existsb_exists. exists (e', true). split; [|done].
  apply list_elem_of_In, (list_elem_of_lookup_2 _ i).
  unfold maintenance_new_data. by rewrite list_lookup_imap, He, <- Hr.
Qed.

Lemma select_all_insert_or_replace_new_data min_permanent time_time
    (t : csetLog_table) :
  select_all (insert_or_replace t
                (maintenance_new_data min_permanent time_time
                   (select_all t)).*1) =
  maintained_rows min_permanent time_time (select_all t).
Proof.
  set (new_data := (maintenance_new_data min_permanent time_time
                      (select_all t)).*1).
  assert (new_data.*1 = (reverse (select_all t)).*1) as Hkeys
    by apply maintenance_new_data_revnums.
  assert (NoDup new_data.*1) as Hnd.
  { rewrite Hkeys, reverse_Permutation.
    apply (key_lt_NoDup fst), select_all_sorted. }
  apply select_all_unique.
  - apply (sorted_by_keys (select_all t)); [|apply select_all_sorted].
    by rewrite maintained_rows_revnums.
  - intros [k v]. unfold maintained_rows. fold new_data.
    rewrite elem_of_reverse. simpl. split.
    + by apply insert_or_replace_lookup.
    + intros Hk. destruct (decide (k ∈ new_data.*1)) as [Hin|Hout].
      * apply list_elem_of_fmap in Hin as ([k' v'] & Hkk & Hin).
        simpl in Hkk. subst k'.
        rewrite (insert_or_replace_lookup t new_data k v' Hnd Hin) in Hk.
        by simplify_eq.
      * rewrite insert_or_replace_other in Hk by done. destruct Hout.
        rewrite Hkeys, fmap_reverse, elem_of_reverse.
        apply (list_elem_of_fmap_2 fst _ (k, v)).
        by apply elem_of_select_all.
Qed.

Lemma restore_or_stamp_row min_permanent time_time count k r ts :
  (restore_or_stamp min_permanent time_time count (k, (r, ts))).1 =
  (k, (r, if bool_decide (Z.of_nat count < min_permanent) then Some (-1)
          else if bool_decide (ts = None) then Some (time_time count)
          else ts)).
Proof.
  unfold restore_or_stamp. repeat case_bool_decide; simpl; try done.
  destruct (decide (ts = Some (-1))) as [->|]; done.
Qed.

(** X8: when the deletion queue is empty and the table is too small for
    anything to be scheduled, a pass of csetLog_maintenance leaves the
    queue empty and every row at its revnum with its revision; counted
    from the newest row, the first MIN rows have timestamp -1 afterwards,
    an older row with a NULL timestamp has the clock's time, and an older
    row with a timestamp keeps it. *)
Theorem maintenance_without_deletion min_permanent max_nonpermanent time_time
    self :
  deletions_todo self = [] → disable_maintenance self = false →
  maintenance_deleted_data max_nonpermanent (select_all (csetLog self)) = [] →
  let after := (csetLog_maintenance_iteration min_permanent max_nonpermanent
                  time_time self).1 in
  (∀ count k r ts,
     reverse (select_all (csetLog self)) !! count = Some (k, (r, ts)) →
     reverse (select_all (csetLog after)) !! count =
     Some (k, (r, if bool_decide (Z.of_nat count < min_permanent)
                  then Some (-1)
                  else if bool_decide (ts = None) then Some (time_time count)
                  else ts))) ∧
  deletions_todo after = [] ∧
  length (select_all (csetLog after)) = length (select_all (csetLog self)).
Proof.
  intros Hq Hd Hdel after.
  assert (select_all (csetLog after) =
          maintained_rows min_permanent time_time (select_all (csetLog self)) ∧
          deletions_todo after = []) as [Hrows Hq'].
  { unfold after, csetLog_maintenance_iteration.
    rewrite Hq, Hd, select_all_resorted, Hdel. cbn [length orb last].
    rewrite bool_decide_eq_false_2 by lia.
    unfold maintenance_new_data2. rewrite Hdel. cbn [length].
    rewrite (bool_decide_eq_false_2 (0 < 0)%nat) by lia.
    destruct (existsb snd _) eqn:Hmod.
    - cbn [andb]. case_bool_decide as Hnil.
      + apply fmap_nil_inv in Hnil. by rewrite Hnil in Hmod.
      + simpl. split; [|done]. apply select_all_insert_or_replace_new_data.
    - simpl. split; [|done]. symmetry. by apply maintained_rows_unmodified. }
  split_and!; [|done|].
  - intros count k r ts He. rewrite Hrows.
    rewrite (maintained_rows_lookup _ _ _ _ _ He).
    by rewrite restore_or_stamp_row.
  - rewrite Hrows. unfold maintained_rows, maintenance_new_data.
    by rewrite length_reverse, length_fmap, length_imap, length_reverse.
Qed.

Lemma maintenance_without_deletion_witness :
  reverse
    (select_all
       (csetLog
          (csetLog_maintenance_iteration 2 MAXIMUM_NONPERMANENT_CSETS
             (λ count, 100 + Z.of_nat count)
             (clogger_with table_mixed)).1)) !! 3%nat =
  Some (3, ("C"%string, Some 103)).
Proof.
  destruct (maintenance_without_deletion 2 MAXIMUM_NONPERMANENT_CSETS
              (λ count, 100 + Z.of_nat count) (clogger_with table_mixed))
    as (Hrow & _); [reflexivity|reflexivity|vm_compute; reflexivity|].
  exact (Hrow 3%nat 3 "C"%string None eq_refl).
Defined.


Lemma insert_or_replace_new_data_revision min_permanent time_time
    (t : csetLog_table) k :
  fst <$> insert_or_replace t
            (maintenance_new_data min_permanent time_time (select_all t)).*1
          !! k = fst <$> t !! k.
Proof.
  set (new_data := (maintenance_new_data min_permanent time_time
                      (select_all t)).*1).
  assert (new_data.*1 = (reverse (select_all t)).*1) as Hkeys
    by apply maintenance_new_data_revnums.
  assert (NoDup new_data.*1) as Hnd.
  { rewrite Hkeys, reverse_Permutation.
    apply (key_lt_NoDup fst), select_all_sorted. }
  destruct (t !! k) as [[r ts]|] eqn:Hk.
  - apply (elem_of_select_all _ (k, (r, ts))) in Hk.
    apply elem_of_reverse_2, list_elem_of_lookup_1 in Hk as [i Hi].
    pose proof (restore_or_stamp_revnum min_permanent time_time i (k, (r, ts)))
      as Hrn.
    pose proof (restore_or_stamp_revision min_permanent time_time i
                  (k, (r, ts))) as Hrv.
    destruct (restore_or_stamp min_permanent time_time i (k, (r, ts)))
      as [[k' [r' ts']] b] eqn:Hr. simpl in Hrn, Hrv. subst k' r'.
    rewrite (insert_or_replace_lookup t new_data k (r, ts')); [done|done|].
    apply (list_elem_of_lookup_2 _ i). unfold new_data, maintenance_new_data.
    rewrite list_lookup_fmap, list_lookup_imap, Hi.
    cbn -[restore_or_stamp]. by rewrite Hr.
  - rewrite insert_or_replace_other, Hk; [done|].
    rewrite Hkeys, fmap_reverse, elem_of_reverse.
    intros ([k' v] & Hkk & Hin%elem_of_select_all)%list_elem_of_fmap.
    simpl in *. congruence.
Qed.

Lemma new_data_projection min_permanent time_time (l : list cset_entry) :
  (λ e : cset_entry, (e.1, e.2.1)) <$>
    (imap (restore_or_stamp min_permanent time_time) l).*1 =
  (λ e : cset_entry, (e.1, e.2.1)) <$> l.
Proof.
  induction l as [|e l IH] using rev_ind; [reflexivity|].
  rewrite imap_app, !fmap_app, IH. cbn -[restore_or_stamp].
  by rewrite restore_or_stamp_revnum, restore_or_stamp_revision.
Qed.

Lemma maintained_rows_projection min_permanent time_time
    (l : list cset_entry) :
  (λ e : cset_entry, (e.1, e.2.1)) <$>
    maintained_rows min_permanent time_time l =
  (λ e : cset_entry, (e.1, e.2.1)) <$> l.
Proof.
  unfold maintained_rows, maintenance_new_data.
  rewrite fmap_reverse, new_data_projection.
  by rewrite <- fmap_reverse, reverse_involutive.
Qed.

Lemma maintenance_table_cases min_permanent max_nonpermanent time_time self :
  let after := (csetLog_maintenance_iteration min_permanent max_nonpermanent
                  time_time self).1 in
  csetLog after = csetLog self ∨
  csetLog after =
    insert_or_replace (csetLog self)
      (maintenance_new_data min_permanent time_time
         (select_all (csetLog self))).*1.
Proof.
  intros after. unfold after, csetLog_maintenance_iteration.
  rewrite select_all_resorted.
  destruct (bool_decide _ || disable_maintenance self); [by left|].
  destruct (existsb snd _ && bool_decide (_ = [])); [by left|].
  assert (csetLog (if existsb snd (maintenance_new_data min_permanent
                                     time_time (select_all (csetLog self)))
                   then set_csetLog
                          (insert_or_replace (csetLog self)
                             (maintenance_new_data2 min_permanent
                                max_nonpermanent time_time
                                (select_all (csetLog self)))) self
                   else self) = csetLog self ∨
          csetLog (if existsb snd (maintenance_new_data min_permanent
                                     time_time (select_all (csetLog self)))
                   then set_csetLog
                          (insert_or_replace (csetLog self)
                             (maintenance_new_data2 min_permanent
                                max_nonpermanent time_time
                                (select_all (csetLog self)))) self
                   else self) =
          insert_or_replace (csetLog self)
            (maintenance_new_data min_permanent time_time
               (select_all (csetLog self))).*1) as Hres.
  { destruct (existsb snd _); [|by left]. simpl.
    unfold maintenance_new_data2. case_bool_decide; [left|by right].
    apply insert_or_replace_id.
    intros e [He _]%list_elem_of_difference. by apply elem_of_select_all. }
  by destruct (last _) as [[? [? ?]]|].
Qed.

(** X9: a pass of csetLog_maintenance changes timestamps at most: every
    revnum keeps its revision, and the revnums, the revisions and the
    number of rows of the table are the same before and after. *)
Theorem maintenance_changes_timestamps_only min_permanent max_nonpermanent
    time_time self :
  let after := (csetLog_maintenance_iteration min_permanent max_nonpermanent
                  time_time self).1 in
  (∀ k, fst <$> csetLog after !! k = fst <$> csetLog self !! k) ∧
  (select_all (csetLog after)).*1 = (select_all (csetLog self)).*1 ∧
  revisions (csetLog after) = revisions (csetLog self) ∧
  size (csetLog after) = size (csetLog self).
Proof.
  intros after.
  assert (∀ k, fst <$> csetLog after !! k = fst <$> csetLog self !! k) as Hk.
  { intros k.
    destruct (maintenance_table_cases min_permanent max_nonpermanent
                time_time self) as [Heq|Heq]; fold after in Heq; rewrite Heq;
      [done|apply insert_or_replace_new_data_revision]. }
  assert ((λ e : cset_entry, (e.1, e.2.1)) <$> select_all (csetLog after) =
          (λ e : cset_entry, (e.1, e.2.1)) <$> select_all (csetLog self))
    as Hproj.
  { destruct (maintenance_table_cases min_permanent max_nonpermanent
                time_time self) as [Heq|Heq]; fold after in Heq; rewrite Heq;
      [done|].
    rewrite select_all_insert_or_replace_new_data.
    apply maintained_rows_projection. }
  split_and!.
  - done.
  - apply (f_equal (fmap fst)) in Hproj.
    by rewrite <- !list_fmap_compose in Hproj.
  - apply (f_equal (fmap snd)) in Hproj.
    by rewrite <- !list_fmap_compose in Hproj.
  - rewrite <- !select_all_length.
    apply (f_equal length) in Hproj. by rewrite !length_fmap in Hproj.
Qed.

Lemma maintenance_deleted_data_take max_nonpermanent
    (all_data : list cset_entry) :
  maintenance_deleted_data max_nonpermanent all_data =
  take (deleted_count max_nonpermanent (length all_data)) all_data.
Proof. done. Qed.

Lemma list_difference_take_nonempty {A} `{EqDecision A} (l : list A) n :
  NoDup l → (n < length l)%nat → list_difference l (take n l) ≠ [].
Proof.
  intros Hnd Hn Hnil.
  destruct (lookup_lt_is_Some_2 l n Hn) as [x Hx].
  assert (x ∈ list_difference l (take n l)) as Hin.
  { apply list_elem_of_difference. split; [by apply (list_elem_of_lookup_2 _ n)|].
    intros (j & Hj)%list_elem_of_lookup_1.
    apply lookup_take_Some in Hj as [Hj Hlt].
    pose proof (NoDup_lookup l j n x Hnd Hj Hx). lia. }
  rewrite Hnil in Hin. by apply elem_of_nil in Hin.
Qed.

Lemma maintenance_schedules min_permanent max_nonpermanent time_time self e :
  deletions_todo self = [] → disable_maintenance self = false →
  let all_data := select_all (csetLog self) in
  let d := deleted_count max_nonpermanent (length all_data) in
  (d < length all_data)%nat →
  last (take d all_data) = Some e →
  csetLog_maintenance_iteration min_permanent max_nonpermanent time_time self =
  (set_deletions_todo [entry_revision e] self,
   [Wait CSET_MAINTENANCE_WAIT_TIME]).
Proof.
  intros Hq Hd all_data d Hlt He.
  unfold csetLog_maintenance_iteration.
  rewrite Hq, Hd, select_all_resorted. fold all_data.
  cbn [length orb]. rewrite bool_decide_eq_false_2 by lia.
  rewrite maintenance_deleted_data_take. fold d. rewrite He.
  assert (take d all_data ≠ []) as Hne by (intros Hnil; by rewrite Hnil in He).
  assert (maintenance_new_data2 min_permanent max_nonpermanent time_time
            all_data = list_difference all_data (take d all_data)) as ->.
  { unfold maintenance_new_data2. rewrite maintenance_deleted_data_take.
    fold d. rewrite bool_decide_eq_true_2; [done|].
    destruct (take d all_data); [done|simpl; lia]. }
  rewrite (bool_decide_eq_false_2 (_ = [])).
  2:{ apply list_difference_take_nonempty; [|done].
      eapply NoDup_fmap_1, (key_lt_NoDup fst), select_all_sorted. }
  rewrite andb_false_r. destruct e as [k [b ts]].
  rewrite insert_or_replace_id.
  2:{ intros e' [He' _]%list_elem_of_difference. by apply elem_of_select_all. }
  rewrite set_csetLog_same.
  destruct (existsb snd _); by rewrite Hq.
Qed.

(** X10: a pass of csetLog_maintenance either leaves deletions_todo as it
    is, or the queue was empty and now holds one revision; in that case
    csetLog is the same after the pass, the revision is that of one of its
    rows, and the lookup the deleter starts with finds it. *)
Theorem maintenance_queue min_permanent max_nonpermanent time_time self :
  let after := (csetLog_maintenance_iteration min_permanent max_nonpermanent
                  time_time self).1 in
  deletions_todo after = deletions_todo self ∨
  ∃ k b ts,
    deletions_todo self = [] ∧ deletions_todo after = [b] ∧
    csetLog after = csetLog self ∧
    csetLog self !! k = Some (b, ts) ∧
    is_Some (_get_one_revnum (csetLog after) b).
Proof.
  intros after. unfold after, csetLog_maintenance_iteration.
  rewrite select_all_resorted.
  set (all_data := select_all (csetLog self)).
  destruct (deletions_todo self) as [|b0 q] eqn:Hq; [|by left].
  cbn [length]. rewrite (bool_decide_eq_false_2 (0 < 0)%nat) by lia.
  destruct (disable_maintenance self); [left; simpl; by rewrite ?Hq|].
  cbn [orb].
  destruct (existsb snd _ && bool_decide (_ = []));
    [left; simpl; by rewrite ?Hq|].
  destruct (last (maintenance_deleted_data max_nonpermanent all_data))
    as [[k [b ts]]|] eqn:Hlast.
  - right. exists k, b, ts.
    assert ((k, (b, ts)) ∈ all_data) as Hin.
    { apply last_Some_elem_of in Hlast.
      rewrite maintenance_deleted_data_take in Hlast.
      by apply elem_of_take in Hlast as (i & Hi & _);
        apply (list_elem_of_lookup_2 _ i). }
    assert (maintenance_new_data2 min_permanent max_nonpermanent time_time
              all_data =
            list_difference all_data
              (maintenance_deleted_data max_nonpermanent all_data)) as ->.
    { unfold maintenance_new_data2. rewrite bool_decide_eq_true_2; [done|].
      destruct (maintenance_deleted_data _ _); [done|simpl; lia]. }
    rewrite insert_or_replace_id.
    2:{ intros e' [He' _]%list_elem_of_difference.
        by apply elem_of_select_all. }
    rewrite set_csetLog_same.
    assert (csetLog self !! k = Some (b, ts)) as Hk
      by by apply elem_of_select_all in Hin.
    split_and!; [done| | |done|].
    + destruct (existsb snd _); simpl; by rewrite Hq.
    + by destruct (existsb snd _).
    + destruct (existsb snd _); simpl;
        by destruct (_get_one_revnum_present _ _ _ _ Hk) as (? & ? & -> & _).
  - left. destruct (existsb snd _); simpl; by rewrite ?Hq.
Qed.

Lemma last_take {A} (l : list A) d e :
  l !! d = Some e → last (take (S d) l) = Some e.
Proof.
  intros He. rewrite (take_S_r _ _ _ He). apply last_snoc.
Qed.

Lemma csetLog_delete_up_to first_cset self k self' :
  _get_one_revnum (csetLog self) first_cset = Some k →
  delete_up_to first_cset self = Returned self' →
  select_all (csetLog self') =
  renumbered (filter (λ e, entry_revision e ∉ revisions_up_to k (csetLog self))
                     (select_all (csetLog self))).
Proof.
  intros Hk. unfold delete_up_to. rewrite Hk. intros [= <-]. simpl.
  by rewrite select_all_recompute, select_all_delete_revision_in.
Qed.

Lemma delete_up_to_Returned first_cset self k :
  _get_one_revnum (csetLog self) first_cset = Some k →
  ∃ self', delete_up_to first_cset self = Returned self'.
Proof. intros Hk. unfold delete_up_to. rewrite Hk. eauto. Qed.

(** X11: with an empty deletion queue, unique revisions and 0 < d < N rows
    scheduled, a pass of csetLog_maintenance followed by a pass of
    csetLog_deleter leaves the newest N - d rows, renumbered from 1, and
    an empty queue.  Here d = N - MAX when 0 <= MAX < N, and d = 2N - MAX
    when N < MAX: the bound N - MAX of the slice is negative then and
    counts from the end. *)
Theorem maintenance_then_deleter min_permanent max_nonpermanent time_time
    self :
  deletions_todo self = [] → disable_maintenance self = false →
  disable_deletion self = false → unique_revisions (csetLog self) →
  let rows := select_all (csetLog self) in
  let d := deleted_count max_nonpermanent (length rows) in
  (0 < d < length rows)%nat →
  let maintained :=
    (csetLog_maintenance_iteration min_permanent max_nonpermanent time_time
       self).1 in
  let deleted := (csetLog_deleter_iteration maintained).1 in
  select_all (csetLog deleted) = renumbered (drop d rows) ∧
  size (csetLog deleted) = (length rows - d)%nat ∧
  deletions_todo deleted = [] ∧
  (0 ≤ max_nonpermanent < Z.of_nat (length rows) →
   Z.of_nat d = Z.of_nat (length rows) - max_nonpermanent) ∧
  (Z.of_nat (length rows) < max_nonpermanent →
   Z.of_nat d = 2 * Z.of_nat (length rows) - max_nonpermanent).
Proof.
  intros Hq Hdm Hdd Hu rows d Hd maintained deleted.
  destruct (lookup_lt_is_Some_2 rows (pred d) ltac:(lia)) as [[k [b ts]] He].
  assert (last (take d rows) = Some (k, (b, ts))) as Hlast.
  { replace d with (S (pred d)) by lia. by apply last_take. }
  assert (maintained = set_deletions_todo [b] self) as Hm.
  { unfold maintained.
    by rewrite (maintenance_schedules _ _ _ _ (k, (b, ts)) Hq Hdm
                  (proj2 Hd) Hlast). }
  assert (_get_one_revnum (csetLog maintained) b = Some k) as Hk.
  { rewrite Hm. simpl. apply (_get_one_revnum_unique _ _ _ ts); [done|].
    apply (elem_of_select_all _ (k, (b, ts))).
    by apply (list_elem_of_lookup_2 _ (pred d)). }
  destruct (delete_up_to_Returned b maintained k Hk) as [s2 Hs2].
  assert (deleted = set_deletions_todo [] s2) as Hdel.
  { unfold deleted.
    rewrite (deleter_iteration_single b maintained s2); [done| | |done];
      by rewrite Hm. }
  assert (select_all (csetLog deleted) = renumbered (drop d rows)) as Hrows.
  { rewrite Hdel. simpl. rewrite (csetLog_delete_up_to b maintained k s2 Hk Hs2).
    rewrite Hm. simpl. rewrite survivors_unique by done. fold rows.
    pose proof (sorted_filter_gt_drop fst rows (pred d) (k, (b, ts))
                  (select_all_sorted _) He) as Hf.
    replace (S (pred d)) with d in Hf by lia.
    f_equal. exact Hf. }
  split_and!.
  - done.
  - rewrite <- select_all_length, Hrows. unfold renumbered.
    by rewrite length_imap, length_drop.
  - by rewrite Hdel.
  - intros Hmx. unfold d, deleted_count.
    rewrite bool_decide_eq_false_2 by lia. lia.
  - intros Hmx. unfold d, deleted_count in *.
    rewrite bool_decide_eq_true_2 in * by lia. lia.
Qed.

Lemma maintenance_then_deleter_witness :
  select_all
    (csetLog
       (csetLog_deleter_iteration
          (csetLog_maintenance_iteration 2 4 (λ _, 1541030400)
             (clogger_with table_mixed)).1).1) =
  [(1, ("C", None)); (2, ("D", Some (-1))); (3, ("E", Some 9));
   (4, ("F", Some (-1)))]%string.
Proof.
  destruct (maintenance_then_deleter 2 4 (λ _, 1541030400)
              (clogger_with table_mixed))
    as (Hrows & _);
    [reflexivity|reflexivity|reflexivity|compute_done|vm_compute; lia|].
  rewrite Hrows. vm_compute. reflexivity.
Defined.

(** ** csetLog_deleter *)

(** X12: deleting up to a revision that the lookup finds at revnum k
    returns; the rows left are those whose revision is not the revision
    of a row with revnum at most k, renumbered from 1; the boundary
    revision is no longer found, and deleting up to it once more
    raises. *)
Theorem delete_up_to_by_revision first_cset self k :
  _get_one_revnum (csetLog self) first_cset = Some k →
  let removed := revisions_up_to k (csetLog self) in
  ∃ self',
    delete_up_to first_cset self = Returned self' ∧
    select_all (csetLog self') =
      renumbered (filter (λ e, entry_revision e ∉ removed)
                         (select_all (csetLog self))) ∧
    (∀ r, r ∈ revisions (csetLog self') ↔
          r ∈ revisions (csetLog self) ∧ r ∉ removed) ∧
    first_cset ∈ removed ∧
    _get_one_revnum (csetLog self') first_cset = None ∧
    delete_up_to first_cset self' = Raised TypeError.
Proof.
  intros Hk removed.
  destruct (delete_up_to_Returned first_cset self k Hk) as [self' Hdel].
  exists self'.
  pose proof (csetLog_delete_up_to _ _ _ _ Hk Hdel) as Hrows.
  fold removed in Hrows.
  assert (∀ r, r ∈ revisions (csetLog self') ↔
               r ∈ revisions (csetLog self) ∧ r ∉ removed) as Hmem.
  { intros r. unfold revisions at 1. rewrite Hrows.
    assert (∀ l : list cset_entry, entry_revision <$> l = l.*2.*1) as Hc
      by (intros l; by rewrite <- list_fmap_compose).
    rewrite Hc, renumbered_payload, <- Hc, list_elem_of_fmap. split.
    - intros (e & -> & [Hno Hin]%list_elem_of_filter). split; [|done].
      by apply list_elem_of_fmap_2.
    - intros [(e & -> & Hin)%list_elem_of_fmap Hno]. exists e.
      split; [done|]. by apply list_elem_of_filter. }
  assert (first_cset ∈ removed) as Hin.
  { apply _get_one_revnum_Some in Hk as (ts & Hk & _).
    apply elem_of_revisions_up_to. exists k, ts. split; [lia|done]. }
  assert (_get_one_revnum (csetLog self') first_cset = None) as Hgone.
  { apply _get_one_revnum_None. rewrite Hmem. tauto. }
  split_and!; try done. unfold delete_up_to. by rewrite Hgone.
Qed.

Lemma delete_up_to_by_revision_witness :
  ∃ self',
    delete_up_to "X" clogger_XY = Returned self' ∧
    _get_one_revnum (csetLog self') "X" = None ∧
    delete_up_to "X" self' = Raised TypeError.
Proof.
  destruct (delete_up_to_by_revision "X" clogger_XY 3)
    as (self' & Hdel & _ & _ & _ & Hgone & Hagain);
    [vm_compute; reflexivity|].
  exists self'. split_and!; [exact Hdel|exact Hgone|exact Hagain].
Defined.

(** X13: when the first revision queued in deletions_todo is not in
    csetLog, the lookup of the deleter raises, and the pass logs a warning,
    waits, and leaves the object as it was, the queue included. *)
Theorem deleter_missing_boundary first_cset rest self :
  deletions_todo self = first_cset :: rest →
  disable_deletion self = false →
  first_cset ∉ revisions (csetLog self) →
  delete_up_to first_cset self = Raised TypeError ∧
  csetLog_deleter_iteration self =
    (self, [LogWarning; Wait CSET_DELETION_WAIT_TIME]).
Proof.
  intros Hq Hd Hno. apply _get_one_revnum_None in Hno.
  assert (delete_up_to first_cset self = Raised TypeError) as Hdel
    by (unfold delete_up_to; by rewrite Hno).
  split; [done|]. unfold csetLog_deleter_iteration. rewrite Hq, Hd.
  rewrite bool_decide_eq_false_2 by (simpl; lia).
  cbn [orb delete_all]. by rewrite Hdel.
Qed.

Lemma deleter_missing_boundary_witness :
  csetLog_deleter_iteration (set_deletions_todo ["Z"%string] clogger_XY) =
  (set_deletions_todo ["Z"%string] clogger_XY,
   [LogWarning; Wait CSET_DELETION_WAIT_TIME]).
Proof.
  destruct (deleter_missing_boundary "Z" []
              (set_deletions_todo ["Z"%string] clogger_XY))
    as [_ Hpass]; [reflexivity|reflexivity|compute_done|].
  exact Hpass.
Defined.

(** ** The range query *)

(** X14: _get_revnum_range with both bounds equal to k returns the row at
    revnum k alone, and nothing when there is none; so the range at the
    revnum that _get_one_revnum returns for a revision is the row of that
    revision. *)
Theorem get_revnum_range_single (t : csetLog_table) k :
  _get_revnum_range t k k =
    match t !! k with
    | Some (r, _) => [(k, r)]
    | None => []
    end ∧
  (∀ r, _get_one_revnum t r = Some k → _get_revnum_range t k k = [(k, r)]).
Proof.
  assert (_get_revnum_range t k k =
          match t !! k with Some (r, _) => [(k, r)] | None => [] end) as Hr.
  { apply (key_lt_unique fst); [apply _get_revnum_range_sorted| |].
    - destruct (t !! k) as [[r ts]|]; repeat constructor.
    - intros [k' r']. rewrite elem_of_get_revnum_range.
      rewrite Z.min_id, Z.max_id. split.
      + intros [[ts Hk'] Hle]. assert (k' = k) as -> by lia.
        rewrite Hk'. by left.
      + destruct (t !! k) as [[r ts]|] eqn:Hk;
          [|by intros ?%elem_of_nil].
        intros Heq%list_elem_of_singleton. injection Heq as H1 H2. subst k' r'.
        split; [eauto|lia]. }
  split; [done|]. intros r Hl.
  apply _get_one_revnum_Some in Hl as (ts & Hk & _).
  by rewrite Hr, Hk.
Qed.

(** ** fill_backward_with_list *)

Lemma backfill_requests_present time_time json_log fuel requests self :
  Forall (λ req : rev_id * bool, req.1 ∈ revisions (csetLog self)) requests →
  backfill_requests time_time json_log fuel requests self =
  Some (Returned tt, self, []).
Proof.
  induction 1 as [|[parent ts] requests Hin _ IH]; [done|].
  cbn [backfill_requests]. rewrite bind_get_self.
  destruct (_get_one_revnum (csetLog self) parent) eqn:Hl; [done|].
  by apply _get_one_revnum_None in Hl.
Qed.

(** X15: when every request queued in csets_todo_backwards names a
    revision that csetLog holds, a pass of fill_backward_with_list fetches
    no changelog page, leaves csetLog as it is and empties the queue. *)
Theorem fill_backward_drops_present time_time json_log fuel self :
  csets_todo_backwards self ≠ [] → disable_backfilling self = false →
  Forall (λ req : rev_id * bool, req.1 ∈ revisions (csetLog self))
         (csets_todo_backwards self) →
  fill_backward_iteration time_time json_log fuel self =
  Some (true, set_csets_todo_backwards [] self, []).
Proof.
  intros Hq Hd Hall. unfold fill_backward_iteration. rewrite Hd.
  rewrite bool_decide_eq_false_2.
  2:{ destruct (csets_todo_backwards self); [done|simpl; lia]. }
  cbn [orb]. by rewrite backfill_requests_present.
Qed.

Lemma fill_backward_drops_present_witness :
  fill_backward_iteration (λ _, 1541030400) (json_log_of history_H 6) 3
    (enqueue_backfill "E" (clogger_with table_DH)) =
  Some (true,
        set_csets_todo_backwards []
          (enqueue_backfill "E" (clogger_with table_DH)), []).
Proof.
  apply (fill_backward_drops_present (λ _, 1541030400)
           (json_log_of history_H 6) 3
           (enqueue_backfill "E" (clogger_with table_DH)));
    [discriminate|reflexivity|compute_done].
Defined.

(** ** _fill_in_range *)

Lemma slice_to_snoc {A} (l : list A) x : slice_to (l ++ [x]) (-1) = l.
Proof.
  unfold slice_to. rewrite bool_decide_eq_true_2 by lia.
  rewrite length_app. simpl.
  replace (Z.to_nat (-1 + Z.of_nat (length l + 1))) with (length l) by lia.
  by rewrite take_app_length.
Qed.

Lemma scan_fill_page_parent parent mid rest csets_found csets_to_add :
  parent ∉ mid → 0 < csets_found →
  scan_fill_page (ParentRev parent) false (mid ++ parent :: rest)
    csets_found csets_to_add =
  (true, csets_found, csets_to_add ++ mid ++ [parent]).
Proof.
  revert csets_to_add. induction mid as [|x mid IH]; intros ca Hno Hcf.
  - cbn [app scan_fill_page negb andb].
    rewrite (bool_decide_eq_false_2 (csets_found ≤ 0)) by lia.
    by rewrite bool_decide_eq_true_2.
  - cbn [app scan_fill_page negb andb].
    rewrite (bool_decide_eq_false_2 (csets_found ≤ 0)) by lia.
    rewrite bool_decide_eq_false_2 by set_solver.
    rewrite IH by (set_solver || done). by rewrite <- app_assoc.
Qed.

Lemma scan_fill_page_backward parent first mid rest :
  parent ∉ mid →
  scan_fill_page (ParentRev parent) false (first :: mid ++ parent :: rest)
    0 [] = (true, 1, mid ++ [parent]).
Proof.
  intros Hno. cbn [scan_fill_page negb andb].
  rewrite (bool_decide_eq_true_2 (0 ≤ 0)) by lia.
  by rewrite scan_fill_page_parent.
Qed.

Lemma fill_pages_backward json_log fuel parent child first mid rest x self :
  json_log child = first :: mid ++ parent :: rest ++ [x] →
  parent ∉ mid →
  fill_pages json_log (S fuel) (ParentRev parent) false child 0 [] self =
  Some (Returned (mid ++ [parent]), self, [GetClog child]).
Proof.
  intros Hpage Hno. cbn [fill_pages]. rewrite bind_get_clog, Hpage.
  replace (first :: mid ++ parent :: rest ++ [x])
    with ((first :: mid ++ parent :: rest) ++ [x])
    by (by rewrite <- app_comm_cons, <- app_assoc).
  rewrite slice_to_snoc, scan_fill_page_backward by done. done.
Qed.

Lemma backward_lookup_first time_time ts mid parent (t t' : csetLog_table) :
  parent ∉ revisions t →
  select_all t' =
    renumbered
      (reverse (filter (λ e, entry_revision e ∉ revisions t)
                       (backward_rows time_time ts (mid ++ [parent])))
       ++ select_all t) →
  _get_one_revnum t' parent = Some 1.
Proof.
  intros Hnew Hrows.
  rewrite backward_rows_snoc, filter_app, filter_cons in Hrows.
  rewrite decide_True, filter_nil in Hrows by done.
  rewrite reverse_app in Hrows. simpl in Hrows.
  set (stamp := Some (if ts then time_time (length mid) else -1)) in *.
  assert (t' !! 1 = Some (parent, stamp)) as H1.
  { apply (elem_of_select_all _ (1, (parent, stamp))). rewrite Hrows.
    by left. }
  destruct (_get_one_revnum_present _ _ _ _ H1) as (k0 & ts0 & -> & Hk0 & Hmin).
  f_equal. specialize (Hmin _ _ H1).
  apply (elem_of_select_all _ (k0, (parent, ts0))) in Hk0.
  rewrite Hrows in Hk0. apply elem_of_renumbered in Hk0 as (i & e & _ & -> & _).
  lia.
Qed.

(** X16: with one queued request, for a revision that csetLog (revnums
    all positive) does not hold and that is on the changelog page of the
    oldest stored revision, after the page's first entry and before its
    last, a pass of fill_backward_with_list fetches that page once,
    inserts the changesets after the first entry down to the requested
    one below the old rows, renumbers from 1, so that the requested
    revision is at revnum 1, and empties the queue. *)
Theorem fill_backward_fills time_time json_log fuel self parent ts child
    first mid rest x :
  csets_todo_backwards self = [(parent, ts)] →
  disable_backfilling self = false →
  parent ∉ revisions (csetLog self) →
  Forall (λ e, 0 < entry_revnum e) (select_all (csetLog self)) →
  (get_tail (csetLog self)).2 = Some child →
  json_log child = first :: mid ++ parent :: rest ++ [x] →
  parent ∉ mid →
  let new_rows :=
    filter (λ e, entry_revision e ∉ revisions (csetLog self))
           (backward_rows time_time ts (mid ++ [parent])) in
  ∃ t',
    fill_backward_iteration time_time json_log (S fuel) self =
      Some (true, set_csets_todo_backwards [] (set_csetLog t' self),
            [GetClog child]) ∧
    select_all t' = renumbered (reverse new_rows ++ select_all (csetLog self)) ∧
    _get_one_revnum t' parent = Some 1.
Proof.
  intros Hq Hd Hnew Hpos Htail Hpage Hmid new_rows.
  destruct (backward_insertion_rows time_time (mid ++ [parent]) ts
              (csetLog self) (positive_revnums _ Hpos))
    as (t' & Hadd & Hrows & _).
  exists t'. split_and!.
  - unfold fill_backward_iteration. rewrite Hq, Hd.
    rewrite bool_decide_eq_false_2 by (simpl; lia).
    cbn [orb backfill_requests]. rewrite bind_get_self.
    apply _get_one_revnum_None in Hnew. rewrite Hnew, Htail.
    unfold _fill_in_range.
    unfold mbind at 1 2. unfold M_bind.
    rewrite (fill_pages_backward _ _ _ _ first mid rest x) by done.
    rewrite (bind_on_csetLog_Returned _ _ _ t') by done.
    done.
  - done.
  - eapply backward_lookup_first; [done|exact Hrows].
Qed.

Lemma fill_backward_fills_witness :
  ∃ t',
    fill_backward_iteration (λ _, 1541030400) (json_log_of history_H 6) 1
      (enqueue_backfill "B" (clogger_with table_DH)) =
      Some (true,
            set_csets_todo_backwards []
              (set_csetLog t' (enqueue_backfill "B" (clogger_with table_DH))),
            [GetClog "D"]) ∧
    select_all t' =
      [(1, ("B", Some 1541030400)); (2, ("C", Some 1541030400));
       (3, ("D", Some (-1))); (4, ("E", Some (-1))); (5, ("F", Some (-1)));
       (6, ("G", Some (-1))); (7, ("H", Some (-1)))]%string.
Proof.
  destruct (fill_backward_fills (λ _, 1541030400) (json_log_of history_H 6)
              0 (enqueue_backfill "B" (clogger_with table_DH))
              "B"%string true "D"%string "D"%string ["C"%string]
              ["A"; "0b"]%string "0a"%string)
    as (t' & Hrun & Hrows & _);
    [reflexivity|reflexivity|compute_done|compute_done|
     vm_compute; reflexivity|vm_compute; reflexivity|compute_done|].
  exists t'. split; [exact Hrun|]. rewrite Hrows. vm_compute. reflexivity.
Defined.

(** ** __init__ *)

Lemma scan_fill_page_count_forward n news c rest found acc :
  found + Z.of_nat (length news) = n →
  scan_fill_page (ParentCount n) true (news ++ c :: rest) found acc =
  (true, n, acc ++ news).
Proof.
  revert found acc. induction news as [|a news IH]; intros found acc Hn.
  - simpl in *. rewrite bool_decide_eq_true_2 by lia.
    rewrite app_nil_r. repeat f_equal. lia.
  - simpl in Hn. cbn [app scan_fill_page negb andb].
    rewrite bool_decide_eq_false_2 by lia.
    rewrite IH by lia. by rewrite <- app_assoc.
Qed.

Lemma fill_pages_count_forward json_log fuel n child news c rest x self :
  json_log child = news ++ c :: rest ++ [x] →
  Z.of_nat (length news) = n →
  fill_pages json_log (S fuel) (ParentCount n) true child 0 [] self =
  Some (Returned news, self, [GetClog child]).
Proof.
  intros Hpage Hn. cbn [fill_pages]. rewrite bind_get_clog, Hpage.
  replace (news ++ c :: rest ++ [x]) with ((news ++ c :: rest) ++ [x])
    by (by rewrite <- app_assoc).
  rewrite slice_to_snoc.
  rewrite (scan_fill_page_count_forward n) by lia. done.
Qed.

(** X17: on a store whose csetLog is empty, when the first page of
    json-log/tip holds MIN changesets and at least two more, the
    constructor fetches that page only and stores the MIN newest
    changesets oldest first at the revnums 1..MIN, on an object with empty
    queues, at_tip set and no worker disabled. *)
Theorem init_fills_empty_store min_permanent time_time json_log fuel self
    news c rest x :
  csetLog self = ∅ →
  json_log "tip"%string = news ++ c :: rest ++ [x] →
  Z.of_nat (length news) = min_permanent →
  0 < min_permanent →
  ∃ t',
    __init__ min_permanent time_time json_log (S fuel) self =
      Some (Returned tt, set_csetLog t' (init_fields self),
            [GetClog "tip"]) ∧
    select_all t' = forward_rows time_time false news ∧
    revisions t' = reverse news ∧
    revnum t' = Some min_permanent.
Proof.
  intros Hempty Hpage Hn Hmp.
  destruct (bootstrap_insertion_rows time_time news false)
    as (t' & Hadd & Hrows & Hrevs).
  exists t'. split_and!; [|done|done|].
  - unfold __init__. rewrite bind_modify_self, bind_get_self.
    cbn [init_fields csetLog]. rewrite Hempty.
    change (size (∅ : csetLog_table)) with 0%nat.
    rewrite bool_decide_eq_true_2 by lia.
    assert ((get_tail (∅ : csetLog_table)).2 = None) as ->.
    { unfold get_tail, select_min_revnum. by rewrite select_all_empty. }
    cbn [truthy_str]. unfold _fill_in_range.
    unfold mbind at 1 2. unfold M_bind.
    rewrite (fill_pages_count_forward _ _ _ _ news c rest x) by (done || lia).
    rewrite (bind_on_csetLog_Returned _ _ _ t')
      by (simpl; by rewrite ?Hempty).
    done.
  - unfold revnum. rewrite select_max_revnum_last, Hrows.
    unfold forward_rows. destruct news as [|a news']; [simpl in Hn; lia|].
    rewrite reverse_cons, imap_app, fmap_app. cbn [imap fmap list_fmap].
    rewrite last_snoc. simpl. f_equal.
    rewrite length_reverse. simpl in Hn. lia.
Qed.

Lemma init_fills_empty_store_witness :
  ∃ t',
    __init__ 3 (λ _, 1541030400) (json_log_of history_H 6) 1
      (clogger_with ∅) =
      Some (Returned tt, set_csetLog t' (init_fields (clogger_with ∅)),
            [GetClog "tip"]) ∧
    select_all t' =
      [(1, ("F", Some (-1))); (2, ("G", Some (-1)));
       (3, ("H", Some (-1)))]%string.
Proof.
  destruct (init_fills_empty_store 3 (λ _, 1541030400)
              (json_log_of history_H 6) 0 (clogger_with ∅)
              ["H"; "G"; "F"]%string "E"%string ["D"%string] "C"%string)
    as (t' & Hrun & Hrows & _);
    [reflexivity|vm_compute; reflexivity|reflexivity|lia|].
  exists t'. split; [exact Hrun|]. rewrite Hrows. vm_compute. reflexivity.
Defined.

(** ** Upstream histories that end *)

Lemma scan_tip_page_unknown r page csets_found csets_to_add :
  r ∉ page →
  scan_tip_page None (Some r) page csets_found csets_to_add =
  (false, csets_found + Z.of_nat (length page), csets_to_add ++ page).
Proof.
  revert csets_found csets_to_add.
  induction page as [|n page IH]; intros csets_found csets_to_add Hr.
  - simpl. by rewrite Z.add_0_r, app_nil_r.
  - apply not_elem_of_cons in Hr as [Hne Hr].
    cbn [scan_tip_page truthy_int negb].
    rewrite bool_decide_eq_false_2 by congruence.
    rewrite IH by done. rewrite <- app_assoc. simpl length.
    replace (csets_found + 1 + Z.of_nat (length page))
      with (csets_found + Z.of_nat (S (length page))) by lia.
    done.
Qed.

Lemma scan_tip_page_short (n : Z) newest_known_rev page csets_found
    csets_to_add :
  0 < n → csets_found + Z.of_nat (length page) ≤ n →
  scan_tip_page (Some n) newest_known_rev page csets_found csets_to_add =
  (false, csets_found + Z.of_nat (length page), csets_to_add ++ page).
Proof.
  intros Hn. revert csets_found csets_to_add.
  induction page as [|c page IH]; intros csets_found csets_to_add Hlen.
  - simpl. by rewrite Z.add_0_r, app_nil_r.
  - simpl length in Hlen. cbn [scan_tip_page truthy_int].
    rewrite (bool_decide_eq_false_2 (n = 0)) by lia. cbn [negb].
    change (default 0 (Some n)) with n.
    rewrite bool_decide_eq_false_2 by lia.
    rewrite IH by lia. rewrite <- app_assoc. simpl length.
    replace (csets_found + 1 + Z.of_nat (length page))
      with (csets_found + Z.of_nat (S (length page))) by lia.
    done.
Qed.

Lemma gather_tip_root json_log fuel csets_to_gather newest_known_rev
    news c self :
  json_log c = [c] →
  scan_tip_page csets_to_gather newest_known_rev news 0 [] =
    (false, Z.of_nat (length news), news) →
  gather_tip json_log fuel csets_to_gather newest_known_rev (news ++ [c])
    0 [] self = None.
Proof.
  intros Hc Hscan. destruct fuel as [|fuel]; [done|].
  cbn [gather_tip]. rewrite slice_to_snoc, Hscan, last_snoc.
  rewrite bind_get_clog, Hc. by rewrite gather_tip_single_page.
Qed.

(** X18: update_tip never returns when the first page of json-log/tip
    ends with a changeset whose own page holds nothing else (the history
    ends there) and either csetLog is empty and the page has at most
    MIN + 1 changesets, or the tip revision of csetLog is not on the page:
    the page of that last changeset is fetched again and again. *)
Theorem update_tip_short_history_loops min_permanent time_time json_log
    news c self :
  json_log "tip"%string = news ++ [c] → json_log c = [c] →
  (csetLog self = ∅ ∧ 0 < min_permanent ∧
   Z.of_nat (length news) ≤ min_permanent) ∨
  (∃ r, (get_tip (csetLog self)).2 = Some r ∧ r ≠ ""%string ∧
        r ∉ news ++ [c]) →
  ∀ fuel, update_tip min_permanent time_time json_log fuel self = None.
Proof.
  intros Htip Hc Hcase fuel. unfold update_tip.
  rewrite bind_get_clog, Htip, bind_get_self.
  destruct (head (news ++ [c])) as [first|] eqn:Hhead;
    [|by destruct news].
  assert (first ∈ news ++ [c]) as Hfirst.
  { destruct news; injection Hhead as <-; by left. }
  destruct Hcase as [(Hempty & Hmp & Hlen)|(r & Hr & Hne & Hnew)].
  - rewrite Hempty.
    assert ((get_tip (∅ : csetLog_table)).2 = None) as ->.
    { unfold get_tip, select_max_revnum. by rewrite select_all_empty. }
    rewrite bool_decide_eq_false_2 by done.
    rewrite bind_modify_self. cbn [truthy_str negb].
    unfold mbind at 1. unfold M_bind.
    rewrite gather_tip_root; [done|done|].
    by rewrite scan_tip_page_short by lia.
  - rewrite Hr.
    rewrite bool_decide_eq_false_2 by (intros [= ->]; done).
    rewrite bind_modify_self. cbn [truthy_str].
    rewrite (bool_decide_eq_false_2 (r = ""%string)) by done. cbn [negb].
    unfold mbind at 1. unfold M_bind.
    rewrite gather_tip_root; [done|done|].
    rewrite scan_tip_page_unknown; [done|].
    intros Hin. apply Hnew, elem_of_app. by left.
Qed.

Lemma update_tip_short_history_loops_witness :
  update_tip MINIMUM_PERMANENT_CSETS (λ _, 1541030400)
    (json_log_of history_H 12) 1000 (clogger_with ∅) = None.
Proof.
  apply (update_tip_short_history_loops MINIMUM_PERMANENT_CSETS
           (λ _, 1541030400) (json_log_of history_H 12)
           ["H"; "G"; "F"; "E"; "D"; "C"; "B"; "A"; "0b"]%string
           "0a"%string (clogger_with ∅));
    [vm_compute; reflexivity|vm_compute; reflexivity|].
  left. split_and!; [reflexivity|reflexivity|vm_compute; discriminate].
Defined.

Lemma scan_fill_page_absent parent page csets_found csets_to_add :
  parent ∉ page → 0 < csets_found →
  scan_fill_page (ParentRev parent) false page csets_found csets_to_add =
  (false, csets_found, csets_to_add ++ page).
Proof.
  revert csets_to_add. induction page as [|x page IH]; intros ca Hno Hcf.
  - simpl. by rewrite app_nil_r.
  - apply not_elem_of_cons in Hno as [Hne Hno].
    cbn [scan_fill_page negb andb].
    rewrite (bool_decide_eq_false_2 (csets_found ≤ 0)) by lia.
    rewrite bool_decide_eq_false_2 by congruence.
    rewrite IH by done. by rewrite <- app_assoc.
Qed.

Lemma scan_fill_page_absent_first parent page :
  parent ∉ tail page →
  (scan_fill_page (ParentRev parent) false page 0 []).1.1 = false.
Proof.
  intros Hno. destruct page as [|first page]; [done|].
  cbn [scan_fill_page negb andb].
  rewrite (bool_decide_eq_true_2 (0 ≤ 0)) by lia.
  by rewrite scan_fill_page_absent.
Qed.

Lemma fill_pages_root json_log fuel parent_cset number_forward c
    csets_found csets_to_add self :
  json_log c = [c] →
  fill_pages json_log fuel parent_cset number_forward c csets_found
    csets_to_add self = None.
Proof.
  intros Hc. revert self.
  induction fuel as [|fuel IH]; intros self; [done|].
  cbn [fill_pages]. rewrite bind_get_clog, Hc, slice_to_single.
  cbn [scan_fill_page last]. by rewrite IH.
Qed.

Lemma fill_pages_unknown json_log fuel parent child page c self :
  json_log child = page ++ [c] → json_log c = [c] →
  parent ∉ tail page →
  fill_pages json_log fuel (ParentRev parent) false child 0 [] self = None.
Proof.
  intros Hpage Hc Hno. destruct fuel as [|fuel]; [done|].
  cbn [fill_pages]. rewrite bind_get_clog, Hpage, slice_to_snoc.
  pose proof (scan_fill_page_absent_first parent page Hno) as Hscan.
  destruct (scan_fill_page _ _ _ _ _) as [[found cf] ca].
  simpl in Hscan. subst found. rewrite last_snoc.
  by rewrite fill_pages_root.
Qed.

(** X19: when the first queued request names a revision that is neither
    in csetLog nor, after the first entry, on the changelog page of the
    oldest stored revision, and that page ends with a changeset whose own
    page holds nothing else (the history ends there), the pass of
    fill_backward_with_list never ends: the page of that last changeset
    is fetched again and again. *)
Theorem fill_backward_unknown_revision_loops time_time json_log self
    parent ts requests child page c :
  csets_todo_backwards self = (parent, ts) :: requests →
  disable_backfilling self = false →
  parent ∉ revisions (csetLog self) →
  (get_tail (csetLog self)).2 = Some child →
  json_log child = page ++ [c] → json_log c = [c] →
  parent ∉ tail page →
  ∀ fuel, fill_backward_iteration time_time json_log fuel self = None.
Proof.
  intros Hq Hd Hnew Htail Hpage Hc Hno fuel.
  unfold fill_backward_iteration. rewrite Hq, Hd.
  rewrite bool_decide_eq_false_2 by (simpl; lia).
  cbn [orb backfill_requests]. rewrite bind_get_self.
  apply _get_one_revnum_None in Hnew. rewrite Hnew, Htail.
  unfold _fill_in_range.
  unfold mbind at 1 2. unfold M_bind.
  by rewrite (fill_pages_unknown _ _ _ _ page c).
Qed.

Lemma fill_backward_unknown_revision_loops_witness :
  fill_backward_iteration (λ _, 1541030400) (json_log_of history_H 6) 1000
    (enqueue_backfill "Z" (clogger_with table_DH)) = None.
Proof.
  apply (fill_backward_unknown_revision_loops (λ _, 1541030400)
           (json_log_of history_H 6)
           (enqueue_backfill "Z" (clogger_with table_DH))
           "Z"%string true [] "D"%string
           ["D"; "C"; "B"; "A"; "0b"]%string "0a"%string);
    [reflexivity|reflexivity|compute_done|vm_compute; reflexivity|
     vm_compute; reflexivity|vm_compute; reflexivity|compute_done].
Defined.
